(** * motiga.core.factory: attribute accessors over a scene graph

    A shallow embedding of [src/motiga/core/factory.py] together with the
    properties of its accessors.

    The module is a thin layer over a host scene-graph API (pymel) and over
    Python's [json] module.  Neither is part of the repository, so both are
    given here as explicit models:

    - the host is a store of typed attribute slots, each with a stored value
      and a list of connected nodes, with the primitives the source calls
      ([hasAttr], [addAttr], [attr], [get], [set], [listConnections],
      [disconnect], [>>]);
    - [json.dumps] / [json.loads] are a printer and a parser for JSON text
      in the layout Python produces.

    The functions of [factory.py] are then transcribed statement by
    statement in a state-and-exception monad over that store. *)

From Stdlib Require Import ZArith String Ascii List Lia.
From Stdlib Require Import Floats.PrimFloat.
From Stdlib Require Import DecimalString DecimalZ.
From stdpp Require Import gmap strings.

Local Open Scope string_scope.
Local Open Scope Z_scope.

(** ** Python values *)

(** A scene-graph node is identified by its name. *)
Definition node := string.

(** The Python values that flow through the accessors.  A dictionary is an
    association list in insertion order (an [OrderedDict]); its keys are
    strings.  [PTuple] is a tuple, which [json.dumps] writes as it writes
    a list.  [PProxy] is an instance of the class [ProxyDict], given by its
    instance dictionary. *)
#[warnings="-register-all"]
Inductive pyval :=
| PNone
| PBool (b : bool)
| PInt (z : Z)
| PFloat (f : float)
| PStr (s : string)
| PList (l : list pyval)
| PTuple (l : list pyval)
| PDict (d : list (string * pyval))
| PNode (n : node)
| PProxy (__dict__ : list (string * pyval)).

(** Truth value of [if value:].  A node handle is true (pymel's [PyNode]
    is true for a node that exists), as is any instance of [ProxyDict]. *)
Definition truthy (v : pyval) : bool :=
  match v with
  | PNone => false
  | PBool b => b
  | PInt z => negb (z =? 0)
  | PFloat f => negb (PrimFloat.eqb f 0%float)
  | PStr s => negb (String.eqb s "")
  | PList l => match l with [] => false | _ => true end
  | PTuple l => match l with [] => false | _ => true end
  | PDict d => match d with [] => false | _ => true end
  | PNode _ => true
  | PProxy _ => true
  end.

(** [isinstance(value, basestring)] *)
Definition is_basestring (v : pyval) : bool :=
  match v with PStr _ => true | _ => false end.

(** ** The host scene graph *)

(** Storage type given to [addAttr]: [dt='string'], [dt='long'],
    [dt='double'] and [at='message']. *)
Inductive storage := dt_string | dt_long | dt_double | at_message.

(** An attribute slot of a node: its storage type, the stored value and the
    nodes connected to it, in the order [listConnections] reports them. *)
Record Attribute := mkAttribute {
  attr_type : storage;
  attr_value : pyval;
  attr_inputs : list node
}.

(** A plug is an attribute of a node, what [obj.attr(name)] returns. *)
Abbreviation plug := (node * string)%type.

(** The scene: the names that resolve to a node, and the attribute slots. *)
Record Scene := mkScene {
  names : gset node;
  plugs : gmap plug Attribute
}.

Definition with_plugs (s : Scene) (m : gmap plug Attribute) : Scene :=
  {| names := names s; plugs := m |}.

(** ** Exceptions and the monad of Python statements *)

Inductive exn :=
| MayaAttributeError   (* obj.attr(name) on a missing attribute *)
| MayaNodeError        (* PyNode(name) when no node has that name *)
| AttributeError       (* value.message on something that is not a node *)
| TypeError
| ValueError           (* json.loads on malformed text *)
| KeyError
| RuntimeError.        (* host failure; maximum recursion depth exceeded *)

(** A statement either completes with a value or raises; in both cases the
    scene it leaves behind is kept, since writes made before an exception
    stay in the scene. *)
Inductive outcome (A : Type) :=
| Done (a : A) (s : Scene)
| Raised (e : exn) (s : Scene).
Arguments Done {A} a s.
Arguments Raised {A} e s.

Definition M (A : Type) := Scene -> outcome A.

Definition ret {A} (a : A) : M A := fun s => Done a s.
Definition raise {A} (e : exn) : M A := fun s => Raised e s.
Definition bind {A B} (c : M A) (k : A -> M B) : M B :=
  fun s => match c s with
           | Done a s' => k a s'
           | Raised e s' => Raised e s'
           end.

Notation "x <- c ;; k" := (bind c (fun x => k))
  (at level 62, c at next level, right associativity).
Notation "c ;;; k" := (bind c (fun _ => k))
  (at level 62, right associativity).

(** The scene after a statement, whether it completed or raised. *)
Definition scene_of {A} (o : outcome A) : Scene :=
  match o with Done _ s => s | Raised _ s => s end.

(** What the caller observes of a call: the value returned or the
    exception raised. *)
Definition result_of {A} (o : outcome A) : exn + A :=
  match o with Done a _ => inr a | Raised e _ => inl e end.

Definition exec {A} (c : M A) (s : Scene) : Scene := scene_of (c s).
Definition eval {A} (c : M A) (s : Scene) : exn + A := result_of (c s).

(** ** Host primitives *)

(** Modelled from the spec: the host scene-graph API (pymel), which
    [factory.py] calls and the repository does not contain.  The spec
    (section 6) names its primitives: attribute-existence query, attribute
    creation with a declared storage type, attribute get and set,
    connection listing, connection creation and disconnection.  Here
    [set] stores the value it is given and [get] reads the stored value
    back; the host checks neither the type of a value nor locks.  [>>] is
    [connectAttr] with [force=True]: the source becomes the connection of
    the attribute.  An attribute that does not exist makes [attr] raise;
    nothing deletes an attribute. *)
Module pymel.

(** Value a freshly created attribute reads as. *)
Definition initial_value (t : storage) : pyval :=
  match t with
  | dt_string => PStr ""
  | dt_long => PInt 0
  | dt_double => PFloat 0%float
  | at_message => PNone
  end.

(** [obj.hasAttr(name)], [hasAttr(obj, name)] *)
Definition hasAttr (obj : node) (name : string) : M bool :=
  fun s => match plugs s !! (obj, name) with
           | Some _ => Done true s
           | None => Done false s
           end.

(** [obj.addAttr(name, dt=t)] / [obj.addAttr(name, at=t)] *)
Definition addAttr (obj : node) (name : string) (t : storage) : M unit :=
  fun s => match plugs s !! (obj, name) with
           | Some _ => Raised RuntimeError s
           | None =>
               Done tt (with_plugs s
                 (<[(obj, name) := mkAttribute t (initial_value t) []]> (plugs s)))
           end.

(** [obj.attr(name)] *)
Definition attr (obj : node) (name : string) : M plug :=
  fun s => match plugs s !! (obj, name) with
           | Some _ => Done (obj, name) s
           | None => Raised MayaAttributeError s
           end.

(** [p.get()] *)
Definition get (p : plug) : M pyval :=
  fun s => match plugs s !! p with
           | Some a => Done (attr_value a) s
           | None => Raised MayaAttributeError s
           end.

(** [p.set(v)] *)
Definition set (p : plug) (v : pyval) : M unit :=
  fun s => match plugs s !! p with
           | Some a =>
               Done tt (with_plugs s
                 (<[p := mkAttribute (attr_type a) v (attr_inputs a)]> (plugs s)))
           | None => Raised MayaAttributeError s
           end.

(** [p.listConnections()] *)
Definition listConnections (p : plug) : M (list node) :=
  fun s => match plugs s !! p with
           | Some a => Done (attr_inputs a) s
           | None => Raised MayaAttributeError s
           end.

(** [p.disconnect()] *)
Definition disconnect (p : plug) : M unit :=
  fun s => match plugs s !! p with
           | Some a =>
               Done tt (with_plugs s
                 (<[p := mkAttribute (attr_type a) (attr_value a) []]> (plugs s)))
           | None => Raised MayaAttributeError s
           end.

(** [value.message]: the message output of a node; a plain value has no
    such attribute.  An instance of [ProxyDict] would answer through its
    [__getattr__]; that is not modelled, it is refused like a plain
    value. *)
Definition message (value : pyval) : M node :=
  match value with
  | PNode n => ret n
  | _ => raise AttributeError
  end.

(** [src.message >> p]: pymel's [>>] is [connectAttr(..., force=True)],
    after which [src] is the connection of [p]. *)
Definition rshift (src : node) (p : plug) : M unit :=
  fun s => match plugs s !! p with
           | Some a =>
               Done tt (with_plugs s
                 (<[p := mkAttribute (attr_type a) (attr_value a) [src]]> (plugs s)))
           | None => Raised MayaAttributeError s
           end.

(** [PyNode(value)] for a name. *)
Definition PyNode (value : pyval) : M node :=
  fun s => match value with
           | PStr name =>
               if decide (name ∈ names s) then Done name s
               else Raised MayaNodeError s
           | PNode n => Done n s
           | _ => Raised TypeError s
           end.

End pymel.

(** ** Attribute access utilities *)

(** [obj.node()] is [obj] itself for a node. *)

Definition _getSingleConnection (obj : node) (attrName : string) : M pyval :=
  has <- pymel.hasAttr obj attrName ;;
  if negb has then ret PNone
  else
    p <- pymel.attr obj attrName ;;
    connections <- pymel.listConnections p ;;
    match connections with
    | c :: _ => ret (PNode c)
    | [] => ret PNone
    end.

(** [messageAttr]: make the attribute if it doesn't exist and return it. *)
Definition messageAttr (obj : node) (name : string) : M plug :=
  has <- pymel.hasAttr obj name ;;
  (if negb has then pymel.addAttr obj name at_message else ret tt) ;;;
  pymel.attr obj name.

Definition _setSingleConnection (obj : node) (attrName : string) (value : pyval)
  : M unit :=
  if truthy value then
    if is_basestring value then
      n <- pymel.PyNode value ;;
      src <- pymel.message (PNode n) ;;
      dst <- messageAttr obj attrName ;;
      pymel.rshift src dst
    else
      src <- pymel.message value ;;
      dst <- messageAttr obj attrName ;;
      pymel.rshift src dst
  else
    has <- pymel.hasAttr obj attrName ;;
    if has then
      p <- pymel.attr obj attrName ;;
      pymel.disconnect p
    else ret tt.

Definition _getStringAttr (obj : node) (attrName : string) : M pyval :=
  has <- pymel.hasAttr obj attrName ;;
  if has then
    p <- pymel.attr obj attrName ;;
    pymel.get p
  else ret (PStr "").

Definition _setStringAttr (obj : node) (attrName : string) (val : pyval) : M unit :=
  has <- pymel.hasAttr obj attrName ;;
  (if negb has then pymel.addAttr obj attrName dt_string else ret tt) ;;;
  match val with
  | PNone => ret tt
  | _ => p <- pymel.attr obj attrName ;; pymel.set p val
  end.

Definition _getSingleStringConnection (obj : node) (attrName : string) : M pyval :=
  has <- pymel.hasAttr obj attrName ;;
  if negb has then ret (PStr "")
  else
    p <- pymel.attr obj attrName ;;
    connections <- pymel.listConnections p ;;
    match connections with
    | c :: _ => ret (PNode c)
    | [] => p' <- pymel.attr obj attrName ;; pymel.get p'
    end.

Definition _setSingleStringConnection (obj : node) (attrName : string)
  (value : pyval) : M unit :=
  if truthy value then
    if is_basestring value then
      has <- pymel.hasAttr obj attrName ;;
      connected <-
        (if has then
           p <- pymel.attr obj attrName ;;
           connections <- pymel.listConnections p ;;
           ret (match connections with [] => false | _ => true end)
         else ret false) ;;
      (if connected then
         p <- pymel.attr obj attrName ;; pymel.disconnect p
       else ret tt) ;;;
      _setStringAttr obj attrName value
    else
      _setStringAttr obj attrName PNone ;;;
      src <- pymel.message value ;;
      dst <- pymel.attr obj attrName ;;
      pymel.rshift src dst
  else
    has <- pymel.hasAttr obj attrName ;;
    if has then
      p <- pymel.attr obj attrName ;;
      pymel.disconnect p ;;;
      p' <- pymel.attr obj attrName ;;
      pymel.set p' (PStr "")
    else ret tt.

Definition _getIntAttr (obj : node) (attrName : string) : M pyval :=
  has <- pymel.hasAttr obj attrName ;;
  if has then
    p <- pymel.attr obj attrName ;;
    pymel.get p
  else ret (PInt (-666)).

Definition _setIntAttr (obj : node) (attrName : string) (val : pyval) : M unit :=
  has <- pymel.hasAttr obj attrName ;;
  (if negb has then pymel.addAttr obj attrName dt_long else ret tt) ;;;
  match val with
  | PNone => ret tt
  | _ => p <- pymel.attr obj attrName ;; pymel.set p val
  end.

#[warnings="-inexact-float"]
Definition _getFloatAttr (obj : node) (attrName : string) : M pyval :=
  has <- pymel.hasAttr obj attrName ;;
  if has then
    p <- pymel.attr obj attrName ;;
    pymel.get p
  else ret (PFloat (-666.666)%float).

Definition _setFloatAttr (obj : node) (attrName : string) (val : pyval) : M unit :=
  has <- pymel.hasAttr obj attrName ;;
  (if negb has then pymel.addAttr obj attrName dt_double else ret tt) ;;;
  match val with
  | PNone => ret tt
  | _ => p <- pymel.attr obj attrName ;; pymel.set p val
  end.

(** ** Python's [json] module *)

(** Text is over the code points 0..255 ([ascii]).  The decimal text of a
    float, and the float a number token denotes, are supplied by the Python
    runtime ([float.__repr__] and [float]); they are taken as parameters,
    and every result below holds whatever they are. *)
Class FloatText := {
  float_repr : float -> string;
  float_of_literal : string -> float
}.

(** Modelled from the spec: Python's [json] module, JSON text being the
    one serialization format the repository uses (spec, section 6), with
    ordered-mapping decoding.  [dumps] writes with the default separators
    and escapes everything outside the printable ASCII range; [loads]
    reads a value with [object_pairs_hook=collections.OrderedDict]. *)
Module json.

Definition dquote : ascii := "034"%char.
Definition backslash : ascii := "\"%char.

Definition hex_digit (n : N) : ascii :=
  ascii_of_N (if (n <? 10)%N then 48 + n else 87 + n)%N.

(** One character of a string literal, as [encode_basestring_ascii]
    writes it: short escapes for the quote, the backslash and five
    control characters, the character itself from the space to the
    tilde, and a four-digit unicode escape for anything else. *)
Definition escape_char (c : ascii) : string :=
  let n := N_of_ascii c in
  if (n =? 34)%N then String backslash (String dquote "")
  else if (n =? 92)%N then String backslash (String backslash "")
  else if (n =? 10)%N then String backslash "n"
  else if (n =? 13)%N then String backslash "r"
  else if (n =? 9)%N then String backslash "t"
  else if (n =? 8)%N then String backslash "b"
  else if (n =? 12)%N then String backslash "f"
  else if ((32 <=? n) && (n <=? 126))%N then String c ""
  else String backslash
         (String "u" (String "0" (String "0"
           (String (hex_digit (n / 16)) (String (hex_digit (n mod 16)) ""))))).

Fixpoint escape (s : string) : string :=
  match s with
  | EmptyString => ""
  | String c rest => escape_char c +:+ escape rest
  end.

Definition encode_string (s : string) : string :=
  String dquote (escape s +:+ String dquote "").

(** [json.dumps] raises [TypeError] on an object that is not JSON
    serializable. *)
Fixpoint serializable (v : pyval) : bool :=
  match v with
  | PList l | PTuple l => forallb serializable l
  | PDict d => forallb (fun kv => serializable (snd kv)) d
  | PNode _ | PProxy _ => false
  | _ => true
  end.

Section Encode.
Context `{FloatText}.

(** The text of a value, with the default separators [", "] and
    [": "].  A tuple is written as an array, like a list. *)
Fixpoint encode (v : pyval) : string :=
  match v with
  | PNone => "null"
  | PBool true => "true"
  | PBool false => "false"
  | PInt z => NilZero.string_of_int (Z.to_int z)
  | PFloat f => float_repr f
  | PStr s => encode_string s
  | PList l =>
      "[" +:+
      (fix items (l : list pyval) : string :=
         match l with
         | [] => ""
         | x :: r =>
             match r with
             | [] => encode x
             | _ => encode x +:+ ", " +:+ items r
             end
         end) l +:+ "]"
  | PTuple l =>
      "[" +:+
      (fix items (l : list pyval) : string :=
         match l with
         | [] => ""
         | x :: r =>
             match r with
             | [] => encode x
             | _ => encode x +:+ ", " +:+ items r
             end
         end) l +:+ "]"
  | PDict d =>
      "{" +:+
      (fix members (d : list (string * pyval)) : string :=
         match d with
         | [] => ""
         | (k, x) :: r =>
             match r with
             | [] => encode_string k +:+ ": " +:+ encode x
             | _ => encode_string k +:+ ": " +:+ encode x +:+ ", " +:+ members r
             end
         end) d +:+ "}"
  | PNode _ | PProxy _ => ""
  end.

Definition dumps (v : pyval) : M string :=
  if serializable v then ret (encode v) else raise TypeError.

End Encode.

(** *** Decoding *)

Definition is_whitespace (c : ascii) : bool :=
  let n := N_of_ascii c in
  ((n =? 32) || (n =? 9) || (n =? 10) || (n =? 13))%N.

Fixpoint skip_ws (s : string) : string :=
  match s with
  | String c rest => if is_whitespace c then skip_ws rest else s
  | EmptyString => s
  end.

Definition is_digit (c : ascii) : bool :=
  let n := N_of_ascii c in ((48 <=? n) && (n <=? 57))%N.

(** The longest run of digits at the head of [s], and what follows. *)
Fixpoint digits (s : string) : string * string :=
  match s with
  | String c rest =>
      if is_digit c then let (d, r) := digits rest in (String c d, r)
      else ("", s)
  | EmptyString => ("", s)
  end.

Definition hex_value (c : ascii) : option N :=
  let n := N_of_ascii c in
  if ((48 <=? n) && (n <=? 57))%N then Some (n - 48)%N
  else if ((97 <=? n) && (n <=? 102))%N then Some (n - 87)%N
  else if ((65 <=? n) && (n <=? 70))%N then Some (n - 55)%N
  else None.

(** The code point of [\uXXXX]; code points above 255 are outside the
    alphabet of this model. *)
Definition unicode_escape (a b c d : ascii) : option ascii :=
  match hex_value a, hex_value b, hex_value c, hex_value d with
  | Some x, Some y, Some z, Some w =>
      if ((x =? 0) && (y =? 0))%N then Some (ascii_of_N (16 * z + w)) else None
  | _, _, _, _ => None
  end.

(** The character a one-letter escape stands for. *)
Definition unescape (c : ascii) : option ascii :=
  let n := N_of_ascii c in
  if (n =? 34)%N then Some dquote
  else if (n =? 92)%N then Some backslash
  else if (n =? 47)%N then Some "/"%char
  else if (n =? 98)%N then Some (ascii_of_N 8)
  else if (n =? 102)%N then Some (ascii_of_N 12)
  else if (n =? 110)%N then Some (ascii_of_N 10)
  else if (n =? 114)%N then Some (ascii_of_N 13)
  else if (n =? 116)%N then Some (ascii_of_N 9)
  else None.

Definition cons_char (c : ascii) (r : option (string * string))
  : option (string * string) :=
  match r with
  | Some (s, rest) => Some (String c s, rest)
  | None => None
  end.

(** [scanstring]: the body of a string literal, from just after its
    opening quote; returns the string and the text after the closing
    quote.  Control characters must be escaped (strict mode). *)
Fixpoint scanstring (s : string) : option (string * string) :=
  match s with
  | EmptyString => None
  | String c rest =>
      let n := N_of_ascii c in
      if (n =? 34)%N then Some ("", rest)
      else if (n =? 92)%N then
        match rest with
        | String e rest' =>
            if (N_of_ascii e =? 117)%N then
              match rest' with
              | String h1 (String h2 (String h3 (String h4 rest''))) =>
                  match unicode_escape h1 h2 h3 h4 with
                  | Some ch => cons_char ch (scanstring rest'')
                  | None => None
                  end
              | _ => None
              end
            else
              match unescape e with
              | Some ch => cons_char ch (scanstring rest')
              | None => None
              end
        | EmptyString => None
        end
      else if (n <? 32)%N then None
      else cons_char c (scanstring rest)
  end.

(** [s] with the prefix [p] removed, when it starts with it. *)
Fixpoint strip_prefix (p s : string) : option string :=
  match p with
  | EmptyString => Some s
  | String a p' =>
      match s with
      | String b s' => if Ascii.eqb a b then strip_prefix p' s' else None
      | EmptyString => None
      end
  end.

(** [OrderedDict(pairs)]: a key seen again keeps its place and takes the
    new value. *)
Fixpoint setitem (d : list (string * pyval)) (k : string) (v : pyval)
  : list (string * pyval) :=
  match d with
  | [] => [(k, v)]
  | (k', v') :: r =>
      if String.eqb k' k then (k', v) :: r else (k', v') :: setitem r k v
  end.

Definition update (d pairs : list (string * pyval)) : list (string * pyval) :=
  fold_left (fun acc kv => setitem acc (fst kv) (snd kv)) pairs d.

Definition OrderedDict (pairs : list (string * pyval)) : pyval :=
  PDict (update [] pairs).

(** The parts of a number token: the sign, the fraction and the
    exponent at the head of [s] (each may be absent), and what follows. *)
Definition take_sign (s : string) : string * string :=
  match s with
  | String "-" r => ("-", r)
  | _ => ("", s)
  end.

Definition take_fraction (s : string) : string * string :=
  match s with
  | String "." r =>
      let (fd, r') := digits r in
      match fd with
      | EmptyString => ("", s)
      | _ => (String "." fd, r')
      end
  | _ => ("", s)
  end.

Definition take_exponent (s : string) : string * string :=
  match s with
  | String e r =>
      if (Ascii.eqb e "e" || Ascii.eqb e "E")%bool then
        let (esign, r1) :=
          match r with
          | String "-" r0 => ("-", r0)
          | String "+" r0 => ("+", r0)
          | _ => ("", r)
          end in
        let (ed, r2) := digits r1 in
        match ed with
        | EmptyString => ("", s)
        | _ => (String e (esign +:+ ed), r2)
        end
      else ("", s)
  | EmptyString => ("", s)
  end.

Section Decode.
Context `{FloatText}.

(** A number token: an optional minus sign, an integer part (a zero, or
    digits that do not start with a zero), an optional fraction (a dot
    and digits) and an optional exponent (e or E, an optional sign and
    digits).  Without fraction and exponent it is an integer, otherwise
    a float.
    A zero followed by a digit is rejected here; the scanner would
    stop after the zero and fail on the digit that follows. *)
Definition scan_number (s : string) : option (pyval * string) :=
  let (sign, s1) := take_sign s in
  let (int_part, s2) := digits s1 in
  match int_part with
  | EmptyString => None
  | String "0" (String _ _) => None
  | _ =>
      let (frac, s3) := take_fraction s2 in
      let (exp, s4) := take_exponent s3 in
      match frac, exp with
      | EmptyString, EmptyString =>
          match NilZero.int_of_string (sign +:+ int_part) with
          | Some d => Some (PInt (Z.of_int d), s4)
          | None => None
          end
      | _, _ =>
          Some (PFloat (float_of_literal (sign +:+ int_part +:+ frac +:+ exp)), s4)
      end
  end.

(** [scan_once], [JSONArray] and [JSONObject] of the decoder, with
    [object_pairs_hook=collections.OrderedDict].  [fuel] bounds the
    nesting and the number of items read; [loads] supplies enough. *)
Fixpoint scan_once (fuel : nat) (s : string) {struct fuel}
  : option (pyval * string) :=
  match fuel with
  | O => None
  | S fuel' =>
      match s with
      | EmptyString => None
      | String c rest =>
          let n := N_of_ascii c in
          if (n =? 34)%N then
            match scanstring rest with
            | Some (str, r) => Some (PStr str, r)
            | None => None
            end
          else if (n =? 123)%N then
            match skip_ws rest with
            | String "}" r => Some (OrderedDict [], r)
            | r =>
                match JSONObject fuel' r with
                | Some (pairs, r') => Some (OrderedDict pairs, r')
                | None => None
                end
            end
          else if (n =? 91)%N then
            match skip_ws rest with
            | String "]" r => Some (PList [], r)
            | r =>
                match JSONArray fuel' r with
                | Some (values, r') => Some (PList values, r')
                | None => None
                end
            end
          else
            match strip_prefix "null" s with
            | Some r => Some (PNone, r)
            | None =>
            match strip_prefix "true" s with
            | Some r => Some (PBool true, r)
            | None =>
            match strip_prefix "false" s with
            | Some r => Some (PBool false, r)
            | None =>
            match strip_prefix "NaN" s with
            | Some r => Some (PFloat nan, r)
            | None =>
            match strip_prefix "Infinity" s with
            | Some r => Some (PFloat infinity, r)
            | None =>
            match strip_prefix "-Infinity" s with
            | Some r => Some (PFloat neg_infinity, r)
            | None => scan_number s
            end end end end end end
      end
  end

with JSONArray (fuel : nat) (s : string) {struct fuel}
  : option (list pyval * string) :=
  match fuel with
  | O => None
  | S fuel' =>
      match scan_once fuel' s with
      | Some (value, r) =>
          match skip_ws r with
          | String "]" r' => Some ([value], r')
          | String "," r' =>
              match JSONArray fuel' (skip_ws r') with
              | Some (values, r'') => Some (value :: values, r'')
              | None => None
              end
          | _ => None
          end
      | None => None
      end
  end

with JSONObject (fuel : nat) (s : string) {struct fuel}
  : option (list (string * pyval) * string) :=
  match fuel with
  | O => None
  | S fuel' =>
      match s with
      | String c r0 =>
          if (N_of_ascii c =? 34)%N then
            match scanstring r0 with
            | Some (key, r1) =>
                match skip_ws r1 with
                | String ":" r2 =>
                    match scan_once fuel' (skip_ws r2) with
                    | Some (value, r3) =>
                        match skip_ws r3 with
                        | String "}" r4 => Some ([(key, value)], r4)
                        | String "," r4 =>
                            match JSONObject fuel' (skip_ws r4) with
                            | Some (pairs, r5) => Some ((key, value) :: pairs, r5)
                            | None => None
                            end
                        | _ => None
                        end
                    | None => None
                    end
                | _ => None
                end
            | None => None
            end
          else None
      | EmptyString => None
      end
  end.

(** [json.loads(s, object_pairs_hook=collections.OrderedDict)]:
    [ValueError] when no value can be decoded or text is left over. *)
Definition loads (v : pyval) : M pyval :=
  match v with
  | PStr s =>
      match scan_once (S (String.length s)) (skip_ws s) with
      | Some (obj, r) =>
          match skip_ws r with
          | EmptyString => ret obj
          | _ => raise ValueError
          end
      | None => raise ValueError
      end
  | _ => raise TypeError
  end.

End Decode.

End json.

(** ** ProxyDict *)

(** [d[a]] *)
Definition getitem (d : pyval) (a : string) : M pyval :=
  match d with
  | PDict items =>
      match List.find (fun kv => String.eqb (fst kv) a) items with
      | Some kv => ret (snd kv)
      | None => raise KeyError
      end
  | _ => raise TypeError
  end.

(** [d[a] = v], giving the dictionary after the assignment. *)
Definition setitem (d : pyval) (a : string) (v : pyval) : M pyval :=
  match d with
  | PDict items => ret (PDict (json.setitem items a v))
  | _ => raise TypeError
  end.

(** [d.update(other)] for a mapping [other].  Python also takes a
    sequence of pairs; that is not modelled: whatever [json.loads] returns
    that is not a mapping is refused here with [TypeError]. *)
Definition dict_update (d : list (string * pyval)) (other : pyval)
  : M (list (string * pyval)) :=
  match other with
  | PDict pairs => ret (json.update d pairs)
  | _ => raise TypeError
  end.

(** The node behind [obj] and the text behind [attrName], for the values
    found in an instance dictionary. *)
Definition as_node (v : pyval) : M node :=
  match v with PNode n => ret n | _ => raise AttributeError end.
Definition as_name (v : pyval) : M string :=
  match v with PStr s => ret s | _ => raise TypeError end.

Module ProxyDict.

(** The instance dictionary of [self]. *)
Definition instance_dict (self : pyval) : list (string * pyval) :=
  match self with PProxy d => d | _ => [] end.

(** [self.name]: the instance dictionary is searched first; the class
    has no data attribute, so a miss goes to the class's [__getattr__]
    hook. *)
Definition getattribute (hook : string -> M pyval) (self : pyval)
  (name : string) : M pyval :=
  match List.find (fun kv => String.eqb (fst kv) name) (instance_dict self) with
  | Some kv => ret (snd kv)
  | None => hook name
  end.

(** [__getattr__]: [return self.d[a]].  [limit] is the number of nested
    calls the interpreter still allows; when it is used up the call
    raises [RuntimeError] (maximum recursion depth exceeded). *)
Fixpoint __getattr__ (limit : nat) (self : pyval) (a : string) : M pyval :=
  match limit with
  | O => raise RuntimeError
  | S limit' =>
      d <- getattribute (__getattr__ limit' self) self "d" ;;
      getitem d a
  end.

(** [__setattr__]: [self.d[a] = v] and then
    [_setStringAttr(self.inst, self.attr, json.dumps(self.d))].
    The class defines [__setattr__], so every assignment [self.x = v]
    comes here, and nothing in it writes to the instance dictionary.
    The dictionary assigned to is the object [self.d] evaluates to; the
    instance is returned with that object updated. *)
Definition __setattr__ `{FloatText} (limit : nat) (self : pyval) (a : string)
  (v : pyval) : M pyval :=
  d <- getattribute (__getattr__ limit self) self "d" ;;
  d' <- setitem d a v ;;
  let self' :=
    PProxy (map (fun kv => if String.eqb (fst kv) "d" then (fst kv, d') else kv)
                (instance_dict self)) in
  inst <- getattribute (__getattr__ limit self') self' "inst" ;;
  attr <- getattribute (__getattr__ limit self') self' "attr" ;;
  d'' <- getattribute (__getattr__ limit self') self' "d" ;;
  text <- json.dumps d'' ;;
  obj <- as_node inst ;;
  attrName <- as_name attr ;;
  _setStringAttr obj attrName (PStr text) ;;;
  ret self'.

(** [__init__]: [self.d = d; self.inst = inst; self.attr = attr]. *)
Definition __init__ `{FloatText} (limit : nat) (d : pyval) (inst : node)
  (attr : string) : M pyval :=
  let self := PProxy [] in
  self <- __setattr__ limit self "d" d ;;
  self <- __setattr__ limit self "inst" (PNode inst) ;;
  self <- __setattr__ limit self "attr" (PStr attr) ;;
  ret self.

End ProxyDict.

(** ** Descriptors *)

(** The accessor classes; each instance holds the attribute name it was
    built with ([self.attr]), and [JsonAccessDirect] its defaults. *)
Inductive accessor :=
| StringAccess (attr : string)
| SingleConnectionAccess (attr : string)
| SingleStringConnectionAccess (attr : string)
| JsonAccess (attr : string)
| JsonAccessDirect (attr : string) (defaults : list (string * pyval))
| IntAccess (attr : string)
| FloatAccess (attr : string).

Section Descriptors.
Context `{FloatText}.

(** [__get__(self, instance, owner)] of each class.  [limit] is the
    interpreter's recursion limit. *)
Definition __get__ (limit : nat) (self : accessor) (instance : node) : M pyval :=
  match self with
  | StringAccess attr => _getStringAttr instance attr
  | SingleConnectionAccess attr => _getSingleConnection instance attr
  | SingleStringConnectionAccess attr => _getSingleStringConnection instance attr
  | JsonAccess attr =>
      res <- _getStringAttr instance attr ;;
      if negb (truthy res) then ret (PDict [])
      else json.loads res
  | JsonAccessDirect attr defaults =>
      res <- _getStringAttr instance attr ;;
      let d := defaults in
      d <- (if truthy res then
              loaded <- json.loads res ;; dict_update d loaded
            else ret d) ;;
      ProxyDict.__init__ limit (PDict d) instance attr
  | IntAccess attr => _getIntAttr instance attr
  | FloatAccess attr => _getFloatAttr instance attr
  end.

(** [__set__(self, instance, value)] of each class. *)
Definition __set__ (self : accessor) (instance : node) (value : pyval) : M unit :=
  match self with
  | StringAccess attr => _setStringAttr instance attr value
  | SingleConnectionAccess attr => _setSingleConnection instance attr value
  | SingleStringConnectionAccess attr => _setSingleStringConnection instance attr value
  | JsonAccess attr =>
      v <- json.dumps value ;;
      _setStringAttr instance attr (PStr v)
  | JsonAccessDirect attr defaults =>
      v <- json.dumps value ;;
      _setStringAttr instance attr (PStr v)
  | IntAccess attr => _setIntAttr instance attr value
  | FloatAccess attr => _setFloatAttr instance attr value
  end.

End Descriptors.

(** ** FakeAttribute and DeprecatedAttr *)

(** A getter is a function of the instance, a setter a function of the
    instance and the value. *)
Module FakeAttribute.

(** [FakeAttribute(obj, getter, setter)] *)
Record t := __init__ {
  obj : node;
  getter : node -> M pyval;
  setter : node -> pyval -> M unit
}.

(** [get]: [return self.getter(self.obj)] *)
Definition get (self : t) : M pyval := getter self (obj self).

(** [set]: [self.setter(self.obj, val)] *)
Definition set (self : t) (val : pyval) : M unit := setter self (obj self) val.

End FakeAttribute.

Module DeprecatedAttr.

(** [DeprecatedAttr(getter, setter, mayaAttr=True)] *)
Record t := __init__ {
  getter : node -> M pyval;
  setter : node -> pyval -> M unit;
  mayaAttr : bool
}.

(** [__get__]: a [FakeAttribute] over the instance for a maya attribute,
    the getter's value otherwise. *)
Definition __get__ (self : t) (instance : node) : M (FakeAttribute.t + pyval) :=
  if mayaAttr self then
    ret (inl (FakeAttribute.__init__ instance (getter self) (setter self)))
  else
    v <- getter self instance ;; ret (inr v).

(** [__set__]: the setter is called only when [mayaAttr] is false. *)
Definition __set__ (self : t) (instance : node) (value : pyval) : M unit :=
  if negb (mayaAttr self) then setter self instance value
  else ret tt.

End DeprecatedAttr.

(** * Properties *)

(** ** Definitions used in the statements *)

(** The scene with slot [p] holding [a]. *)
Definition put (s : Scene) (p : plug) (a : Attribute) : Scene :=
  with_plugs s (<[p := a]> (plugs s)).
Arguments put : simpl never.

(** The slot an [addAttr] of type [t] leaves when there was none, or the
    slot that was there. *)
Definition ensured (t : storage) (o : option Attribute) : Attribute :=
  match o with
  | Some a => a
  | None => mkAttribute t (pymel.initial_value t) []
  end.

(** The slot after [set(val)], which is skipped for [None]. *)
Definition written (val : pyval) (a : Attribute) : Attribute :=
  match val with
  | PNone => a
  | _ => mkAttribute (attr_type a) val (attr_inputs a)
  end.

Definition disconnected (a : Attribute) : Attribute :=
  mkAttribute (attr_type a) (attr_value a) [].

Definition connected (src : node) (a : Attribute) : Attribute :=
  mkAttribute (attr_type a) (attr_value a) [src].

(** The node a truthy [value] connects: a name is resolved, a node is
    taken as it is, anything else has no [message]. *)
Definition source_of (s : Scene) (value : pyval) : exn + node :=
  match value with
  | PStr n => if decide (n ∈ names s) then inr n else inl MayaNodeError
  | PNode n => inr n
  | _ => inl AttributeError
  end.

(** *** Scenes and values of the examples *)

(** Float text for the examples, none of which holds a float. *)
Definition plain_floats : FloatText :=
  {| float_repr := fun _ => "0.0"; float_of_literal := fun _ => 0%float |}.

(** Two joints and no custom attribute. *)
Definition two_joints : Scene := mkScene {[ "joint1"; "joint2" ]} ∅.

Definition quoted (s : string) : string :=
  String json.dquote (s +:+ String json.dquote "").

(** [joint1.motigaData] holds the text [{"a":1}]. *)
Definition stored_a1 : Scene :=
  put two_joints ("joint1", "motigaData")
      (mkAttribute dt_string (PStr ("{" +:+ quoted "a" +:+ ":1}")) []).

Definition defaults_ab : list (string * pyval) := [("a", PInt 0); ("b", PInt 2)].

(** [joint1.ref] is a string attribute holding a literal, unconnected. *)
Definition stored_hello : Scene :=
  put two_joints ("joint1", "ref") (mkAttribute dt_string (PStr "hello") []).

(** [joint1.ref] is connected to [joint2]. *)
Definition linked : Scene :=
  put two_joints ("joint1", "ref") (mkAttribute dt_string (PStr "") ["joint2"]).





(** *** JSON data *)

(** Keys are pairwise different. *)
Fixpoint unique (keys : list string) : bool :=
  match keys with
  | [] => true
  | k :: r => negb (existsb (String.eqb k) r) && unique r
  end.

(** The values whose round trip through JSON text is proved: [None],
    booleans, integers, strings, lists of such values and mappings from
    pairwise different keys to such values.  Floats are left out (their
    text is a parameter), as are tuples (they are read back as lists);
    nodes and proxies are not serializable. *)
Fixpoint json_data (v : pyval) : bool :=
  match v with
  | PNone | PBool _ | PInt _ | PStr _ => true
  | PList l => forallb json_data l
  | PDict d => unique (map fst d) && forallb (fun kv => json_data (snd kv)) d
  | PFloat _ | PTuple _ | PNode _ | PProxy _ => false
  end.

Definition encode_items `{FloatText} (l : list pyval) : string :=
  (fix items (l : list pyval) : string :=
     match l with
     | [] => ""
     | x :: r =>
         match r with
         | [] => json.encode x
         | _ => json.encode x +:+ ", " +:+ items r
         end
     end) l.

Definition encode_members `{FloatText} (d : list (string * pyval)) : string :=
  (fix members (d : list (string * pyval)) : string :=
     match d with
     | [] => ""
     | (k, x) :: r =>
         match r with
         | [] => json.encode_string k +:+ ": " +:+ json.encode x
         | _ => json.encode_string k +:+ ": " +:+ json.encode x +:+ ", " +:+ members r
         end
     end) d.

(** The characters a value's text can start with. *)
Definition value_start (c : ascii) : bool :=
  let n := N_of_ascii c in
  (json.is_digit c || (n =? 34) || (n =? 45) || (n =? 91) || (n =? 123)
   || (n =? 110) || (n =? 116) || (n =? 102))%N.

(** [rest] may follow a value: it is empty or starts with a comma or a
    closing bracket or brace. *)
Definition delimited (rest : string) : bool :=
  match rest with
  | EmptyString => true
  | String c _ =>
      (Ascii.eqb c "," || Ascii.eqb c "]" || Ascii.eqb c "}")%bool
  end.

Fixpoint all_digits (s : string) : bool :=
  match s with
  | EmptyString => true
  | String c r => json.is_digit c && all_digits r
  end.

(** A digit other than zero, or a lone zero, starts an integer. *)
Definition int_head (ds : string) : bool :=
  match ds with
  | EmptyString => false
  | String c t =>
      json.is_digit c && (negb (Ascii.eqb c "0") || String.eqb t "")
  end.

(** The decoder reads [v] back from its text, whatever follows it. *)
Definition decodes `{FloatText} (v : pyval) : Prop :=
  forall (fuel : nat) (rest : string),
    (String.length (json.encode v) < fuel)%nat ->
    delimited rest = true ->
    json.scan_once fuel (json.encode v +:+ rest) = Some (v, rest).

(** *** Slots and outcomes *)

(** [self.attr] *)
Definition attr_of (self : accessor) : string :=
  match self with
  | StringAccess attr
  | SingleConnectionAccess attr
  | SingleStringConnectionAccess attr
  | JsonAccess attr
  | JsonAccessDirect attr _
  | IntAccess attr
  | FloatAccess attr => attr
  end.

(** The values on which [value.message] raises [AttributeError]: the
    plain Python values, which have no attribute of that name. *)
Definition lacks_message (v : pyval) : bool :=
  match v with
  | PNode _ | PProxy _ => false
  | _ => true
  end.

(** The outcome with result [r] in scene [s]. *)
Definition outcome_of {A} (r : exn + A) (s : Scene) : outcome A :=
  match r with inr a => Done a s | inl e => Raised e s end.

(** The scene with slot [p] replaced when there is a new slot. *)
Definition put_opt (s : Scene) (p : plug) (o : option Attribute) : Scene :=
  match o with Some a => put s p a | None => s end.

(** An instance of [ProxyDict] whose dictionary holds the three fields
    [__init__] assigns. *)
Definition proxy_over (d : list (string * pyval)) (inst : node) (attr : string)
  : pyval :=
  PProxy [("d", PDict d); ("inst", PNode inst); ("attr", PStr attr)].

(** ** The scene after a write *)

Section SceneFacts.
Implicit Types (s : Scene) (p q : plug) (a b : Attribute).

Lemma plugs_put_eq s p a : plugs (put s p a) !! p = Some a.
Proof. unfold put; simpl. apply lookup_insert_eq. Qed.

Lemma plugs_put_ne s p q a : p ≠ q -> plugs (put s p a) !! q = plugs s !! q.
Proof. intros. unfold put; simpl. by apply lookup_insert_ne. Qed.

Lemma names_put s p a : names (put s p a) = names s.
Proof. reflexivity. Qed.

Lemma put_put s p a b : put (put s p a) p b = put s p b.
Proof. unfold put, with_plugs; simpl. f_equal. apply insert_insert_eq. Qed.

Lemma put_id s p a : plugs s !! p = Some a -> put s p a = s.
Proof.
  intros E. destruct s as [n m]; unfold put, with_plugs; simpl in *.
  f_equal. by apply insert_id.
Qed.

Lemma disconnected_id a : attr_inputs a = [] -> disconnected a = a.
Proof. destruct a; simpl; intros ->; reflexivity. Qed.
End SceneFacts.

(** ** What each utility does to the scene *)

Ltac py_unfold :=
  cbv beta iota delta
    [bind ret raise pymel.hasAttr pymel.addAttr pymel.attr pymel.get pymel.set
     pymel.listConnections pymel.disconnect pymel.rshift pymel.message
     pymel.PyNode negb].

(** Run a utility on a scene in which the lookups of the slot are known. *)
Ltac py_step :=
  repeat first
    [ progress py_unfold
    | match goal with
      | H : plugs ?s !! ?p = _ |- context [plugs ?s !! ?p] => rewrite H
      end
    | match goal with
      | |- context [with_plugs ?s (<[?p := ?a]> (plugs ?s))] =>
          change (with_plugs s (<[p := a]> (plugs s))) with (put s p a)
      end
    | rewrite plugs_put_eq
    | rewrite put_put ].

Section Utilities.
Variables (obj : node) (name : string).
Implicit Types (s : Scene) (val : pyval).

Lemma getStringAttr_spec s :
  _getStringAttr obj name s =
  Done (match plugs s !! (obj, name) with
        | Some a => attr_value a
        | None => PStr ""
        end) s.
Proof.
  unfold _getStringAttr. destruct (plugs s !! (obj, name)) eqn:E; by py_step.
Qed.

Lemma getIntAttr_spec s :
  _getIntAttr obj name s =
  Done (match plugs s !! (obj, name) with
        | Some a => attr_value a
        | None => PInt (-666)
        end) s.
Proof.
  unfold _getIntAttr. destruct (plugs s !! (obj, name)) eqn:E; by py_step.
Qed.

#[warnings="-inexact-float"]
Lemma getFloatAttr_spec s :
  _getFloatAttr obj name s =
  Done (match plugs s !! (obj, name) with
        | Some a => attr_value a
        | None => PFloat (-666.666)%float
        end) s.
Proof.
  unfold _getFloatAttr. destruct (plugs s !! (obj, name)) eqn:E; by py_step.
Qed.

Lemma getSingleConnection_spec s :
  _getSingleConnection obj name s =
  Done (match plugs s !! (obj, name) with
        | Some a => match attr_inputs a with c :: _ => PNode c | [] => PNone end
        | None => PNone
        end) s.
Proof.
  unfold _getSingleConnection.
  destruct (plugs s !! (obj, name)) as [a|] eqn:E; py_step; [|done].
  by destruct (attr_inputs a).
Qed.

Lemma getSingleStringConnection_spec s :
  _getSingleStringConnection obj name s =
  Done (match plugs s !! (obj, name) with
        | Some a => match attr_inputs a with c :: _ => PNode c | [] => attr_value a end
        | None => PStr ""
        end) s.
Proof.
  unfold _getSingleStringConnection.
  destruct (plugs s !! (obj, name)) as [a|] eqn:E; py_step; [|done].
  destruct (attr_inputs a); py_step; done.
Qed.

Lemma ensure_spec t s :
  (has <- pymel.hasAttr obj name ;;
   (if negb has then pymel.addAttr obj name t else ret tt)) s =
  Done tt (put s (obj, name) (ensured t (plugs s !! (obj, name)))).
Proof.
  destruct (plugs s !! (obj, name)) as [a|] eqn:E; py_step; [|done].
  by rewrite put_id.
Qed.

Lemma set_written val s (a : Attribute) :
  plugs s !! (obj, name) = Some a ->
  match val with
  | PNone => ret tt
  | _ => p <- pymel.attr obj name ;; pymel.set p val
  end s = Done tt (put s (obj, name) (written val a)).
Proof.
  intros E. destruct val; py_step; try done. by rewrite put_id.
Qed.

Lemma setAttr_spec t val s :
  (has <- pymel.hasAttr obj name ;;
   (if negb has then pymel.addAttr obj name t else ret tt) ;;;
   match val with
   | PNone => ret tt
   | _ => p <- pymel.attr obj name ;; pymel.set p val
   end) s =
  Done tt (put s (obj, name) (written val (ensured t (plugs s !! (obj, name))))).
Proof.
  destruct (plugs s !! (obj, name)) as [a|] eqn:E; simpl.
  - destruct val; py_step; try done; by rewrite put_id.
  - destruct val; py_step; done.
Qed.

Lemma setStringAttr_spec val s :
  _setStringAttr obj name val s =
  Done tt (put s (obj, name) (written val (ensured dt_string (plugs s !! (obj, name))))).
Proof. apply setAttr_spec. Qed.

Lemma setIntAttr_spec val s :
  _setIntAttr obj name val s =
  Done tt (put s (obj, name) (written val (ensured dt_long (plugs s !! (obj, name))))).
Proof. apply setAttr_spec. Qed.

Lemma setFloatAttr_spec val s :
  _setFloatAttr obj name val s =
  Done tt (put s (obj, name) (written val (ensured dt_double (plugs s !! (obj, name))))).
Proof. apply setAttr_spec. Qed.

Lemma messageAttr_spec s :
  messageAttr obj name s =
  Done (obj, name) (put s (obj, name) (ensured at_message (plugs s !! (obj, name)))).
Proof.
  unfold messageAttr.
  destruct (plugs s !! (obj, name)) as [a|] eqn:E; py_step; [|done].
  by rewrite put_id.
Qed.

Lemma setSingleConnection_spec value s :
  _setSingleConnection obj name value s =
  if truthy value then
    match source_of s value with
    | inr src =>
        Done tt (put s (obj, name)
                   (connected src (ensured at_message (plugs s !! (obj, name)))))
    | inl e => Raised e s
    end
  else
    match plugs s !! (obj, name) with
    | Some a => Done tt (put s (obj, name) (disconnected a))
    | None => Done tt s
    end.
Proof.
  unfold _setSingleConnection. destruct (truthy value) eqn:T.
  - assert (R : forall src, (dst <- messageAttr obj name ;; pymel.rshift src dst) s
              = Done tt (put s (obj, name)
                   (connected src (ensured at_message (plugs s !! (obj, name)))))).
    { intros src. unfold bind. rewrite messageAttr_spec. by py_step. }
    destruct value; try discriminate T; simpl; try done.
    + unfold bind at 1. unfold pymel.PyNode. destruct (decide _); [|done].
      apply R.
    + apply R.
  - destruct (plugs s !! (obj, name)) as [a|] eqn:E; py_step; done.
Qed.

Lemma setSingleStringConnection_spec value s :
  _setSingleStringConnection obj name value s =
  let a := ensured dt_string (plugs s !! (obj, name)) in
  if truthy value then
    match value with
    | PStr _ => Done tt (put s (obj, name) (written value (disconnected a)))
    | PNode src => Done tt (put s (obj, name) (connected src a))
    | _ => Raised AttributeError (put s (obj, name) a)
    end
  else
    match plugs s !! (obj, name) with
    | Some a => Done tt (put s (obj, name) (written (PStr "") (disconnected a)))
    | None => Done tt s
    end.
Proof.
  unfold _setSingleStringConnection. destruct (truthy value) eqn:T.
  - assert (R : forall v, (_setStringAttr obj name PNone ;;;
                src <- pymel.message v ;; dst <- pymel.attr obj name ;;
                pymel.rshift src dst) s =
              match v with
              | PNode src =>
                  Done tt (put s (obj, name)
                    (connected src (ensured dt_string (plugs s !! (obj, name)))))
              | _ => Raised AttributeError
                       (put s (obj, name) (ensured dt_string (plugs s !! (obj, name))))
              end).
    { intros v. unfold bind at 1. rewrite setStringAttr_spec. simpl.
      destruct v; by py_step. }
    destruct value; try discriminate T; try (by apply R). simpl.
    destruct (plugs s !! (obj, name)) as [a|] eqn:E.
    + unfold bind at 1. py_step.
      destruct (attr_inputs a) eqn:I.
      * unfold bind. simpl. rewrite setStringAttr_spec, E. simpl.
        by rewrite I.
      * py_step. rewrite setStringAttr_spec. by py_step.
    + unfold bind at 1. py_step. rewrite setStringAttr_spec, E. done.
  - destruct (plugs s !! (obj, name)) as [a|] eqn:E; by py_step.
Qed.

End Utilities.

(** ** ProxyDict never gets built *)

Lemma loads_pure `{FloatText} v s : scene_of (json.loads v s) = s.
Proof.
  unfold json.loads. destruct v; try reflexivity.
  repeat case_match; reflexivity.
Qed.

(** On an instance whose dictionary is empty, [self.d] goes to
    [__getattr__], which evaluates [self.d] again: the recursion ends only
    when the interpreter's limit is reached. *)
Lemma getattr_unset limit a s :
  ProxyDict.__getattr__ limit (PProxy []) a s = Raised RuntimeError s.
Proof.
  revert a. induction limit as [|limit IH]; intros a; [reflexivity|].
  simpl. unfold bind, ProxyDict.getattribute. simpl. by rewrite IH.
Qed.

Lemma ProxyDict_init_raises `{FloatText} limit d inst attr s :
  ProxyDict.__init__ limit d inst attr s = Raised RuntimeError s.
Proof.
  unfold ProxyDict.__init__, ProxyDict.__setattr__, bind, ProxyDict.getattribute.
  simpl. by rewrite getattr_unset.
Qed.

(** ** Getters *)

Lemma JsonAccess_get_spec `{FloatText} limit attr instance s :
  __get__ limit (JsonAccess attr) instance s =
  let res := match plugs s !! (instance, attr) with
             | Some a => attr_value a
             | None => PStr ""
             end in
  if truthy res then json.loads res s else Done (PDict []) s.
Proof.
  simpl. unfold bind. rewrite getStringAttr_spec. by destruct (truthy _).
Qed.

Lemma JsonAccessDirect_get_spec `{FloatText} limit attr defaults instance s :
  __get__ limit (JsonAccessDirect attr defaults) instance s =
  let res := match plugs s !! (instance, attr) with
             | Some a => attr_value a
             | None => PStr ""
             end in
  if truthy res then
    match json.loads res s with
    | Done (PDict _) _ => Raised RuntimeError s
    | Done _ _ => Raised TypeError s
    | Raised e _ => Raised e s
    end
  else Raised RuntimeError s.
Proof.
  simpl. unfold bind at 1. rewrite getStringAttr_spec. cbv zeta.
  unfold bind at 1. destruct (truthy _).
  - unfold bind at 1. pose proof (loads_pure (match plugs s !! (instance, attr) with
             | Some a => attr_value a
             | None => PStr ""
             end) s) as P.
    destruct (json.loads _ s) as [v s'|e s']; simpl in P; subst s'; [|done].
    destruct v; try done. simpl. unfold ret. apply ProxyDict_init_raises.
  - unfold ret. apply ProxyDict_init_raises.
Qed.

(** ** Setters *)

Lemma written_written v a : written v (written v a) = written v a.
Proof. by destruct v. Qed.

Lemma json_set_spec `{FloatText} attr instance value s :
  (v <- json.dumps value ;; _setStringAttr instance attr (PStr v)) s =
  if json.serializable value then
    Done tt (put s (instance, attr)
               (written (PStr (json.encode value))
                  (ensured dt_string (plugs s !! (instance, attr)))))
  else Raised TypeError s.
Proof.
  unfold bind, json.dumps. destruct (json.serializable value); [|done].
  unfold ret. apply setStringAttr_spec.
Qed.

Lemma set_idempotent `{FloatText} (self : accessor) (instance : node) (v : pyval)
  (s : Scene) :
  __set__ self instance v (exec (__set__ self instance v) s)
  = __set__ self instance v s.
Proof.
  unfold exec. destruct self; cbn [__set__].
  - rewrite (setStringAttr_spec _ _ _ s). cbn [scene_of].
    rewrite setStringAttr_spec, plugs_put_eq, put_put. cbn [ensured].
    by rewrite written_written.
  - rewrite (setSingleConnection_spec _ _ _ s).
    destruct (truthy v) eqn:T.
    + destruct (source_of s v) as [e|src] eqn:S; cbn [scene_of].
      * by rewrite setSingleConnection_spec, T, S.
      * rewrite setSingleConnection_spec, T.
        replace (source_of (put s (instance, attr) _) v) with (inr (A := exn) src)
          by (by rewrite <- S; destruct v).
        by rewrite plugs_put_eq, put_put.
    + destruct (plugs s !! (instance, attr)) as [a|] eqn:E; cbn [scene_of].
      * rewrite setSingleConnection_spec, T, plugs_put_eq.
        by rewrite put_put.
      * by rewrite setSingleConnection_spec, T, E.
  - rewrite (setSingleStringConnection_spec _ _ _ s). cbv zeta.
    destruct (truthy v) eqn:T.
    + destruct v; try discriminate T; cbn [scene_of];
        rewrite setSingleStringConnection_spec; cbv zeta; rewrite ?T;
        rewrite plugs_put_eq, put_put; done.
    + destruct (plugs s !! (instance, attr)) as [a|] eqn:E; cbn [scene_of].
      * rewrite setSingleStringConnection_spec, T, plugs_put_eq.
        by rewrite put_put.
      * by rewrite setSingleStringConnection_spec, T, E.
  - rewrite (json_set_spec _ _ _ s). destruct (json.serializable v) eqn:S;
      cbn [scene_of]; rewrite json_set_spec, S; [|done].
    by rewrite plugs_put_eq, put_put.
  - rewrite (json_set_spec _ _ _ s). destruct (json.serializable v) eqn:S;
      cbn [scene_of]; rewrite json_set_spec, S; [|done].
    by rewrite plugs_put_eq, put_put.
  - rewrite (setIntAttr_spec _ _ _ s). cbn [scene_of].
    rewrite setIntAttr_spec, plugs_put_eq, put_put. cbn [ensured].
    by rewrite written_written.
  - rewrite (setFloatAttr_spec _ _ _ s). cbn [scene_of].
    rewrite setFloatAttr_spec, plugs_put_eq, put_put. cbn [ensured].
    by rewrite written_written.
Qed.

(** ** Round trip of the JSON codec *)

Section Strings.
Implicit Types (a b c s t : string).

Lemma append_cons (x : ascii) a b : String x a +:+ b = String x (a +:+ b).
Proof. reflexivity. Qed.

Lemma append_assoc a b c : (a +:+ b) +:+ c = a +:+ (b +:+ c).
Proof. induction a as [|x a IH]; [done|]. rewrite !append_cons. cbn. by rewrite IH. Qed.

Lemma append_nil_r a : a +:+ "" = a.
Proof. induction a as [|x a IH]; [done|]. rewrite !append_cons. cbn. by rewrite IH. Qed.

Lemma length_append a b :
  String.length (a +:+ b) = (String.length a + String.length b)%nat.
Proof. induction a as [|x a IH]; [done|]. rewrite !append_cons. cbn. by rewrite IH. Qed.
End Strings.

(** Every character comes back from its escaped form. *)
Lemma scanstring_escape_char (c : ascii) (t : string) :
  json.scanstring (json.escape_char c +:+ t) = json.cons_char c (json.scanstring t).
Proof.
  destruct c as [[] [] [] [] [] [] [] []]; reflexivity.
Qed.

Lemma scanstring_escape (s rest : string) :
  json.scanstring (json.escape s +:+ String json.dquote rest) = Some (s, rest).
Proof.
  induction s as [|c s IH]; [reflexivity|].
  cbn [json.escape]. rewrite append_assoc, scanstring_escape_char, IH. reflexivity.
Qed.

Lemma scanstring_encode_string (s rest : string) :
  json.scanstring (json.escape s +:+ String json.dquote "" +:+ rest) = Some (s, rest).
Proof. apply scanstring_escape. Qed.

(** *** Integers *)

Lemma all_digits_uint (d : Decimal.uint) :
  all_digits (NilEmpty.string_of_uint d) = true.
Proof. induction d; simpl; auto. Qed.

Lemma digits_append (ds rest : string) :
  all_digits ds = true -> delimited rest = true ->
  json.digits (ds +:+ rest) = (ds, rest).
Proof.
  intros D R. induction ds as [|c ds IH].
  - destruct rest as [|c r]; [done|]. cbn.
    destruct c as [[] [] [] [] [] [] [] []]; try discriminate R; reflexivity.
  - rewrite append_cons. cbn in *. apply andb_prop in D as [-> D].
    by rewrite IH.
Qed.

(** The decimal text of a positive number has no leading zero. *)
Lemma to_uint_head (p : positive) :
  match Pos.to_uint p with
  | Decimal.Nil | Decimal.D0 _ => False
  | _ => True
  end.
Proof.
  pose proof (DecimalPos.Unsigned.to_uint_nonnil p) as NN.
  pose proof (DecimalPos.Unsigned.to_uint_nonzero p) as NZ.
  pose proof (DecimalPos.Unsigned.to_of (Pos.to_uint p)) as N.
  rewrite DecimalPos.Unsigned.of_to in N. cbn [N.to_uint] in N.
  destruct (Pos.to_uint p) as [|u| | | | | | | | |]; try done.
  rewrite DecimalFacts.unorm_D0 in N.
  assert (u <> Decimal.Nil) as U by (by intros ->).
  apply DecimalFacts.nb_digits_unorm in U. rewrite <- N in U. cbn in U. lia.
Qed.

Lemma append_nil_l (s : string) : "" +:+ s = s.
Proof. reflexivity. Qed.

Lemma take_fraction_delimited (rest : string) :
  delimited rest = true -> json.take_fraction rest = ("", rest).
Proof.
  destruct rest as [|c r]; [done|]. intros R. cbn in R.
  destruct c as [[] [] [] [] [] [] [] []]; try discriminate R; reflexivity.
Qed.

Lemma take_exponent_delimited (rest : string) :
  delimited rest = true -> json.take_exponent rest = ("", rest).
Proof.
  destruct rest as [|c r]; [done|]. intros R. cbn in R.
  destruct c as [[] [] [] [] [] [] [] []]; try discriminate R; reflexivity.
Qed.

Lemma take_sign_digit (c : ascii) (t : string) :
  json.is_digit c = true -> json.take_sign (String c t) = ("", String c t).
Proof.
  intros Hc. destruct c as [[] [] [] [] [] [] [] []]; try discriminate Hc; reflexivity.
Qed.

Lemma scan_number_digits `{FloatText} (neg : bool) (ds rest : string) :
  all_digits ds = true -> int_head ds = true -> delimited rest = true ->
  json.scan_number ((if neg then "-" else "") +:+ ds +:+ rest) =
  match NilZero.int_of_string ((if neg then "-" else "") +:+ ds) with
  | Some d => Some (PInt (Z.of_int d), rest)
  | None => None
  end.
Proof.
  intros D Hd R. unfold json.scan_number.
  destruct ds as [|c t]; [done|].
  pose proof Hd as Hc. cbn in Hc. apply andb_prop in Hc as [Hc Hz].
  replace (json.take_sign ((if neg then "-" else "") +:+ String c t +:+ rest))
    with (if neg then "-" else "", String c t +:+ rest).
  2: { destruct neg; [reflexivity|].
       by rewrite append_nil_l, append_cons, take_sign_digit. }
  rewrite digits_append by done.
  rewrite take_fraction_delimited by done.
  rewrite take_exponent_delimited by done.
  destruct t as [|c' t'].
  - destruct c as [[] [] [] [] [] [] [] []]; try discriminate Hc; reflexivity.
  - destruct c as [[] [] [] [] [] [] [] []]; try discriminate Hc;
      try discriminate Hz; reflexivity.
Qed.

(** A number token is not taken for a string, an object, an array or a
    literal. *)
Lemma scan_once_number `{FloatText} (fuel : nat) (neg : bool) (ds rest : string) :
  int_head ds = true ->
  json.scan_once (S fuel) ((if neg then "-" else "") +:+ ds +:+ rest) =
  json.scan_number ((if neg then "-" else "") +:+ ds +:+ rest).
Proof.
  intros Hd. destruct ds as [|c t]; [done|].
  cbn in Hd. apply andb_prop in Hd as [Hc _].
  destruct neg.
  - rewrite !append_cons, append_nil_l.
    destruct c as [[] [] [] [] [] [] [] []]; try discriminate Hc; reflexivity.
  - rewrite append_nil_l, append_cons.
    destruct c as [[] [] [] [] [] [] [] []]; try discriminate Hc; reflexivity.
Qed.

Lemma int_head_uint (p : positive) :
  int_head (NilEmpty.string_of_uint (Pos.to_uint p)) = true.
Proof.
  pose proof (to_uint_head p) as Hh.
  destruct (Pos.to_uint p); try done.
Qed.

Lemma scan_once_int `{FloatText} (fuel : nat) (z : Z) (rest : string) :
  delimited rest = true ->
  json.scan_once (S fuel) (NilZero.string_of_int (Z.to_int z) +:+ rest)
  = Some (PInt z, rest).
Proof.
  intros R.
  assert (I : NilZero.int_of_string (NilZero.string_of_int (Z.to_int z))
              = Some (Z.to_int z)).
  { apply NilZero.isi; destruct z; try discriminate; cbn;
      intros E; injection E as E; by apply DecimalPos.Unsigned.to_uint_nonnil in E. }
  assert (T : exists (neg : bool) (ds : string),
             NilZero.string_of_int (Z.to_int z) = (if neg then "-" else "") +:+ ds
             /\ all_digits ds = true /\ int_head ds = true).
  { destruct z as [|p|p].
    - by exists false, "0".
    - exists false, (NilEmpty.string_of_uint (Pos.to_uint p)).
      pose proof (to_uint_head p). split; [|split].
      + cbn. by destruct (Pos.to_uint p).
      + apply all_digits_uint.
      + apply int_head_uint.
    - exists true, (NilEmpty.string_of_uint (Pos.to_uint p)).
      pose proof (to_uint_head p). split; [|split].
      + cbn. by destruct (Pos.to_uint p).
      + apply all_digits_uint.
      + apply int_head_uint. }
  destruct T as (neg & ds & E & D & Hd).
  rewrite E in *. rewrite append_assoc.
  rewrite scan_once_number by done.
  rewrite scan_number_digits by done.
  rewrite I. by rewrite DecimalZ.of_to.
Qed.

(** *** Values *)

(** Induction on values, with the hypothesis for the members of a list and
    of a mapping. *)
Lemma pyval_nested_ind (P : pyval -> Prop) :
  P PNone -> (forall b, P (PBool b)) -> (forall z, P (PInt z)) ->
  (forall f, P (PFloat f)) -> (forall s, P (PStr s)) ->
  (forall l, Forall P l -> P (PList l)) ->
  (forall l, Forall P l -> P (PTuple l)) ->
  (forall d, Forall (fun kv => P (snd kv)) d -> P (PDict d)) ->
  (forall n, P (PNode n)) -> (forall d, P (PProxy d)) ->
  forall v, P v.
Proof.
  intros HN HB HI HF HS HL HT HD HO HP.
  fix IH 1. intros [ | b | z | f | s | l | l | d | n | d ].
  - exact HN.
  - apply HB.
  - apply HI.
  - apply HF.
  - apply HS.
  - apply HL. induction l as [|x l IHl]; constructor; [apply IH | exact IHl].
  - apply HT. induction l as [|x l IHl]; constructor; [apply IH | exact IHl].
  - apply HD. induction d as [|[k x] d IHd]; constructor; [apply IH | exact IHd].
  - apply HO.
  - apply HP.
Qed.

Lemma update_unique (acc d : list (string * pyval)) :
  unique (map fst (acc ++ d)%list) = true -> json.update acc d = (acc ++ d)%list.
Proof.
  revert acc. induction d as [|[k x] d IH]; intros acc U.
  - by rewrite app_nil_r.
  - unfold json.update in *. cbn [fold_left fst snd].
    assert (S : json.setitem acc k x = (acc ++ [(k, x)])%list).
    { clear IH. induction acc as [|[k' x'] acc IHa]; [done|].
      cbn in U. apply andb_prop in U as [N U].
      cbn [json.setitem]. rewrite map_app, existsb_app in N. cbn in N.
      destruct (String.eqb k' k) eqn:E; [by rewrite orb_true_r in N|].
      by rewrite IHa. }
    rewrite S, IH; [by rewrite <- app_assoc|].
    by rewrite <- app_assoc.
Qed.

Lemma OrderedDict_unique (d : list (string * pyval)) :
  unique (map fst d) = true -> json.OrderedDict d = PDict d.
Proof. intros U. unfold json.OrderedDict. by rewrite (update_unique [] d). Qed.

Lemma skip_ws_value (c : ascii) (t : string) :
  value_start c = true -> json.skip_ws (String c t) = String c t.
Proof.
  intros V. destruct c as [[] [] [] [] [] [] [] []]; try discriminate V; reflexivity.
Qed.

Lemma int_text (z : Z) :
  exists (neg : bool) (ds : string),
    NilZero.string_of_int (Z.to_int z) = (if neg then "-" else "") +:+ ds
    /\ all_digits ds = true /\ int_head ds = true.
Proof.
  destruct z as [|p|p].
  - by exists false, "0".
  - exists false, (NilEmpty.string_of_uint (Pos.to_uint p)).
    pose proof (to_uint_head p). split; [|split].
    + cbn. by destruct (Pos.to_uint p).
    + apply all_digits_uint.
    + apply int_head_uint.
  - exists true, (NilEmpty.string_of_uint (Pos.to_uint p)).
    pose proof (to_uint_head p). split; [|split].
    + cbn. by destruct (Pos.to_uint p).
    + apply all_digits_uint.
    + apply int_head_uint.
Qed.

(** The text of a value is not empty and starts with one of those. *)
Lemma encode_head `{FloatText} (v : pyval) :
  json_data v = true ->
  exists c t, json.encode v = String c t /\ value_start c = true.
Proof.
  destruct v as [ | [] | z | f | s | l | l | d | n | d ]; intros J;
    try discriminate J;
    try (by eexists _, _).
  destruct (int_text z) as (neg & ds & E & D & Hd). cbn [json.encode]. rewrite E.
  destruct ds as [|c t]; [done|]. cbn in Hd. apply andb_prop in Hd as [Hc _].
  destruct neg.
  - by eexists _, _.
  - exists c, t. split; [done|]. unfold value_start. by rewrite Hc.
Qed.

Lemma skip_ws_encode `{FloatText} (v : pyval) (rest : string) :
  json_data v = true -> json.skip_ws (json.encode v +:+ rest) = json.encode v +:+ rest.
Proof.
  intros J. destruct (encode_head v J) as (c & t & -> & V).
  rewrite append_cons. by apply skip_ws_value.
Qed.

(** *** The decoder on the text of a value *)

Section Steps.
Context `{FloatText}.
Implicit Types (fuel : nat) (s r rest : string) (x : pyval).

Lemma scan_once_string fuel str rest :
  json.scan_once (S fuel) (json.encode_string str +:+ rest) = Some (PStr str, rest).
Proof.
  unfold json.encode_string. rewrite append_cons, append_assoc.
  cbn [json.scan_once]. by rewrite scanstring_encode_string.
Qed.

Lemma scan_once_empty_list fuel rest :
  json.scan_once (S fuel) ("[]" +:+ rest) = Some (PList [], rest).
Proof. reflexivity. Qed.

Lemma scan_once_empty_dict fuel rest :
  json.scan_once (S fuel) ("{}" +:+ rest) = Some (PDict [], rest).
Proof. reflexivity. Qed.

Lemma scan_once_list fuel c t l rest :
  value_start c = true ->
  json.JSONArray fuel (String c t) = Some (l, rest) ->
  json.scan_once (S fuel) (String "[" (String c t)) = Some (PList l, rest).
Proof.
  intros V E. cbn [json.scan_once]. rewrite skip_ws_value by done.
  destruct c as [[] [] [] [] [] [] [] []]; try discriminate V;
    rewrite E; reflexivity.
Qed.

Lemma scan_once_dict fuel t d rest :
  json.JSONObject fuel (String json.dquote t) = Some (d, rest) ->
  json.scan_once (S fuel) (String "{" (String json.dquote t))
  = Some (json.OrderedDict d, rest).
Proof.
  intros E. cbn [json.scan_once]. rewrite skip_ws_value by done.
  unfold json.dquote in *. rewrite E. reflexivity.
Qed.

Lemma JSONArray_last fuel s x rest :
  json.scan_once fuel s = Some (x, String "]" rest) ->
  json.JSONArray (S fuel) s = Some ([x], rest).
Proof. intros E. cbn [json.JSONArray]. rewrite E. reflexivity. Qed.

Lemma JSONArray_more fuel s x r l rest :
  json.scan_once fuel s = Some (x, String "," (String " " r)) ->
  json.skip_ws r = r ->
  json.JSONArray fuel r = Some (l, rest) ->
  json.JSONArray (S fuel) s = Some (x :: l, rest).
Proof.
  intros E W A. cbn [json.JSONArray]. rewrite E.
  change (json.skip_ws (String "," (String " " r)))
    with (String "," (String " " r)).
  cbv beta iota.
  change (json.skip_ws (String " " r)) with (json.skip_ws r).
  rewrite W, A. reflexivity.
Qed.

Lemma JSONObject_last fuel s key r x rest :
  json.scanstring s = Some (key, String ":" (String " " r)) ->
  json.skip_ws r = r ->
  json.scan_once fuel r = Some (x, String "}" rest) ->
  json.JSONObject (S fuel) (String json.dquote s) = Some ([(key, x)], rest).
Proof.
  intros K W E. cbn [json.JSONObject]. unfold json.dquote.
  change (N_of_ascii "034" =? 34)%N with true. cbv beta iota. rewrite K.
  change (json.skip_ws (String ":" (String " " r)))
    with (String ":" (String " " r)).
  cbv beta iota.
  change (json.skip_ws (String " " r)) with (json.skip_ws r).
  rewrite W, E. reflexivity.
Qed.

Lemma JSONObject_more fuel s key r x r' d rest :
  json.scanstring s = Some (key, String ":" (String " " r)) ->
  json.skip_ws r = r ->
  json.scan_once fuel r = Some (x, String "," (String " " r')) ->
  json.skip_ws r' = r' ->
  json.JSONObject fuel r' = Some (d, rest) ->
  json.JSONObject (S fuel) (String json.dquote s) = Some ((key, x) :: d, rest).
Proof.
  intros K W E W' O. cbn [json.JSONObject]. unfold json.dquote.
  change (N_of_ascii "034" =? 34)%N with true. cbv beta iota. rewrite K.
  change (json.skip_ws (String ":" (String " " r)))
    with (String ":" (String " " r)).
  cbv beta iota.
  change (json.skip_ws (String " " r)) with (json.skip_ws r).
  rewrite W, E.
  change (json.skip_ws (String "," (String " " r')))
    with (String "," (String " " r')).
  cbv beta iota.
  change (json.skip_ws (String " " r')) with (json.skip_ws r').
  rewrite W', O. reflexivity.
Qed.
End Steps.

(** Bring a text to the form [String c (... +:+ ...)], nested to the right. *)
Ltac norm_text :=
  repeat first [rewrite append_assoc | rewrite append_cons | rewrite append_nil_l].

Lemma Forall_forallb {A} (f : A -> bool) (P : A -> Prop) (l : list A) :
  Forall (fun x => f x = true -> P x) l -> forallb f l = true -> Forall P l.
Proof.
  induction 1 as [|x l Hx _ IH]; intros J; [constructor|].
  cbn in J. apply andb_prop in J as [Jx J]. constructor; auto.
Qed.

Lemma forallb_Forall_impl {A} (f g : A -> bool) (l : list A) :
  Forall (fun x => f x = true -> g x = true) l ->
  forallb f l = true -> forallb g l = true.
Proof.
  induction 1 as [|x l Hx _ IH]; intros J; [done|].
  cbn in *. apply andb_prop in J as [Jx J]. by rewrite Hx, IH.
Qed.

Lemma serializable_data (v : pyval) :
  json_data v = true -> json.serializable v = true.
Proof.
  induction v as [ | b | z | f | s | l IH | l _ | d IH | n | d ]
    using pyval_nested_ind;
    try done; cbn [json_data json.serializable]; intros J.
  - by eapply forallb_Forall_impl.
  - apply andb_prop in J as [_ J].
    by eapply (forallb_Forall_impl (fun kv => json_data (snd kv))).
Qed.

Section RoundTrip.
Context `{FloatText}.

Lemma encode_list l : json.encode (PList l) = "[" +:+ encode_items l +:+ "]".
Proof. reflexivity. Qed.

Lemma encode_dict d : json.encode (PDict d) = "{" +:+ encode_members d +:+ "}".
Proof. reflexivity. Qed.

Lemma encode_items_more x y r :
  encode_items (x :: y :: r) = json.encode x +:+ ", " +:+ encode_items (y :: r).
Proof. reflexivity. Qed.

Lemma encode_members_more k x kv r :
  encode_members ((k, x) :: kv :: r)
  = json.encode_string k +:+ ": " +:+ json.encode x +:+ ", "
    +:+ encode_members (kv :: r).
Proof. reflexivity. Qed.

Lemma skip_ws_items x l rest :
  json_data x = true ->
  json.skip_ws (encode_items (x :: l) +:+ rest) = encode_items (x :: l) +:+ rest.
Proof.
  intros J. destruct l as [|y l].
  - by apply skip_ws_encode.
  - rewrite encode_items_more, append_assoc. by apply skip_ws_encode.
Qed.

Lemma JSONArray_items l :
  l <> [] -> Forall decodes l -> forallb json_data l = true ->
  forall (fuel : nat) (rest : string),
    (String.length (encode_items l) + 1 < fuel)%nat ->
    json.JSONArray fuel (encode_items l +:+ "]" +:+ rest) = Some (l, rest).
Proof.
  induction l as [|x l IH]; [done|]. intros _ F J fuel rest L.
  destruct fuel as [|f]; [lia|].
  apply Forall_cons_1 in F as [Dx F]. cbn [forallb] in J.
  apply andb_prop in J as [Jx J].
  destruct l as [|y l].
  - change (encode_items [x]) with (json.encode x) in *.
    apply JSONArray_last. apply Dx; [lia|done].
  - rewrite encode_items_more in *. rewrite !length_append in L.
    rewrite !append_assoc.
    apply JSONArray_more
      with (r := encode_items (y :: l) +:+ "]" +:+ rest).
    + apply Dx; [|done]. cbn [String.length] in L. lia.
    + cbn [forallb] in J. apply andb_prop in J as [Jy _].
      by apply skip_ws_items.
    + apply IH; [done|done|done|]. cbn [String.length] in L. lia.
Qed.

Lemma JSONObject_members d :
  d <> [] -> Forall (fun kv => decodes (snd kv)) d ->
  forallb (fun kv => json_data (snd kv)) d = true ->
  forall (fuel : nat) (rest : string),
    (String.length (encode_members d) + 1 < fuel)%nat ->
    json.JSONObject fuel (encode_members d +:+ "}" +:+ rest) = Some (d, rest).
Proof.
  induction d as [|[k x] d IH]; [done|]. intros _ F J fuel rest L.
  destruct fuel as [|f]; [lia|].
  apply Forall_cons_1 in F as [Dx F]. cbn [forallb snd] in J, Dx.
  apply andb_prop in J as [Jx J].
  destruct d as [|[k' y] d].
  - change (encode_members [(k, x)])
      with (json.encode_string k +:+ ": " +:+ json.encode x) in *.
    unfold json.encode_string in *. rewrite !length_append in L.
    norm_text.
    apply JSONObject_last with (r := json.encode x +:+ "}" +:+ rest).
    + by rewrite scanstring_escape.
    + by apply skip_ws_encode.
    + apply Dx; [|done]. cbn [String.length] in L. lia.
  - rewrite encode_members_more in *.
    unfold json.encode_string in L |- * at 1. rewrite !length_append in L.
    norm_text.
    apply JSONObject_more
      with (r := json.encode x +:+ ", " +:+ encode_members ((k', y) :: d)
                 +:+ "}" +:+ rest)
           (r' := encode_members ((k', y) :: d) +:+ "}" +:+ rest).
    + by rewrite scanstring_escape.
    + by apply skip_ws_encode.
    + apply Dx; [|done]. cbn [String.length] in L. lia.
    + destruct d as [|kv d].
      * reflexivity.
      * reflexivity.
    + apply IH; [done|done|done|]. cbn [String.length] in L. lia.
Qed.

Lemma decodes_data (v : pyval) : json_data v = true -> decodes v.
Proof.
  induction v as [ | b | z | f | s | l IH | l _ | d IH | n | d ]
    using pyval_nested_ind;
    intros J fuel rest L R; try discriminate J;
    (destruct fuel as [|fuel]; [lia|]).
  - reflexivity.
  - by destruct b.
  - by apply scan_once_int.
  - apply scan_once_string.
  - destruct l as [|x l]; [reflexivity|].
    rewrite encode_list in *. norm_text.
    change (String "]" rest) with ("]" +:+ rest).
    cbn [json_data forallb] in J. pose proof J as J'.
    apply andb_prop in J' as [Jx _].
    destruct (encode_head x Jx) as (c & t & E & V).
    assert (A : json.JSONArray fuel (encode_items (x :: l) +:+ "]" +:+ rest)
                = Some (x :: l, rest)).
    { apply JSONArray_items; [done | by eapply Forall_forallb | done |].
      rewrite !length_append in L. cbn [String.length] in L. lia. }
    assert (E' : exists t', encode_items (x :: l) +:+ "]" +:+ rest = String c t').
    { destruct l; [rewrite (eq_refl : encode_items [x] = json.encode x)
                  | rewrite encode_items_more];
        rewrite E, append_cons; by eexists. }
    destruct E' as [t' E']. rewrite E' in *. by apply scan_once_list.
  - destruct d as [|[k x] d]; [reflexivity|].
    rewrite encode_dict in *. norm_text.
    change (String "}" rest) with ("}" +:+ rest).
    cbn [json_data] in J. apply andb_prop in J as [U J].
    rewrite <- (OrderedDict_unique ((k, x) :: d) U).
    assert (A : json.JSONObject fuel (encode_members ((k, x) :: d) +:+ "}" +:+ rest)
                = Some ((k, x) :: d, rest)).
    { apply JSONObject_members;
        [done | by eapply (Forall_forallb (fun kv => json_data (snd kv))) | done |].
      rewrite !length_append in L. cbn [String.length] in L. lia. }
    assert (E' : exists t', encode_members ((k, x) :: d) +:+ "}" +:+ rest
                            = String json.dquote t').
    { destruct d as [|kv d];
        [change (encode_members [(k, x)])
           with (json.encode_string k +:+ ": " +:+ json.encode x)
        | rewrite encode_members_more];
        unfold json.encode_string; rewrite !append_cons; by eexists. }
    destruct E' as [t' E']. rewrite E' in *. by apply scan_once_dict.
Qed.

(** [loads(dumps(v))] is [v]. *)
Lemma loads_dumps (v : pyval) (s : Scene) :
  json_data v = true ->
  json.serializable v = true
  /\ json.encode v <> ""
  /\ json.loads (PStr (json.encode v)) s = Done v s.
Proof.
  intros J. split; [|split].
  - by apply serializable_data.
  - destruct (encode_head v J) as (c & t & -> & _). done.
  - unfold json.loads.
    pose proof (skip_ws_encode v "" J) as W. rewrite append_nil_r in W.
    rewrite W.
    pose proof (decodes_data v J (S (String.length (json.encode v))) ""
                  ltac:(lia) eq_refl) as D.
    rewrite append_nil_r in D. rewrite D. reflexivity.
Qed.
End RoundTrip.

(** ** Claims *)

(** C1 (the code breaks it): a [JsonAccessDirect] whose backing attribute
    does not exist does not return its defaults: [__get__] raises
    [RuntimeError], whatever the recursion limit. *)
Theorem get_missing_JsonAccessDirect_raises `{FloatText} (limit : nat)
  (attr : string) (defaults : list (string * pyval)) (instance : node) (s : Scene) :
  plugs s !! (instance, attr) = None ->
  eval (__get__ limit (JsonAccessDirect attr defaults) instance) s = inl RuntimeError.
Proof.
  intros E. unfold eval. rewrite JsonAccessDirect_get_spec, E. reflexivity.
Qed.

Lemma get_missing_JsonAccessDirect_raises_witness :
  plugs two_joints !! ("joint1", "motigaData") = None
  /\ eval (__get__ (H := plain_floats) 1000
             (JsonAccessDirect "motigaData" defaults_ab) "joint1") two_joints
     = inl RuntimeError.
Proof.
  split; [reflexivity|].
  apply (get_missing_JsonAccessDirect_raises (H := plain_floats)). reflexivity.
Defined.

(** The other accessors return their default on a missing attribute. *)
#[warnings="-inexact-float"]
Lemma get_missing_default `{FloatText} (limit : nat) (attr : string)
  (instance : node) (s : Scene) :
  plugs s !! (instance, attr) = None ->
  eval (__get__ limit (StringAccess attr) instance) s = inr (PStr "")
  /\ eval (__get__ limit (IntAccess attr) instance) s = inr (PInt (-666))
  /\ eval (__get__ limit (FloatAccess attr) instance) s = inr (PFloat (-666.666)%float)
  /\ eval (__get__ limit (JsonAccess attr) instance) s = inr (PDict [])
  /\ eval (__get__ limit (SingleConnectionAccess attr) instance) s = inr PNone
  /\ eval (__get__ limit (SingleStringConnectionAccess attr) instance) s = inr (PStr "").
Proof.
  intros E. unfold eval. repeat split.
  - simpl. by rewrite getStringAttr_spec, E.
  - simpl. by rewrite getIntAttr_spec, E.
  - simpl. by rewrite getFloatAttr_spec, E.
  - by rewrite JsonAccess_get_spec, E.
  - simpl. by rewrite getSingleConnection_spec, E.
  - simpl. by rewrite getSingleStringConnection_spec, E.
Qed.

#[warnings="-inexact-float"]
Lemma get_missing_default_witness :
  let get k := eval (__get__ (H := plain_floats) 1000 k "joint1") two_joints in
  get (StringAccess "motigaData") = inr (PStr "")
  /\ get (IntAccess "motigaData") = inr (PInt (-666))
  /\ get (FloatAccess "motigaData") = inr (PFloat (-666.666)%float)
  /\ get (JsonAccess "motigaData") = inr (PDict [])
  /\ get (SingleConnectionAccess "motigaData") = inr PNone
  /\ get (SingleStringConnectionAccess "motigaData") = inr (PStr "").
Proof.
  apply (get_missing_default (H := plain_floats) 1000 "motigaData" "joint1" two_joints).
  reflexivity.
Defined.








(** The text stored for that mapping, and for the empty one. *)
Example stored_canned_goods :
  eval (__set__ (H := plain_floats) (JsonAccess "motigaData") "joint1"
          (PDict [("canned", PStr "goods")]) ;;;
        __get__ (H := plain_floats) 1000 (StringAccess "motigaData") "joint1")
    two_joints
  = inr (PStr ("{" +:+ quoted "canned" +:+ ": " +:+ quoted "goods" +:+ "}")).
Proof. vm_compute. reflexivity. Qed.

Example stored_empty :
  eval (__set__ (H := plain_floats) (JsonAccess "motigaData") "joint1" (PDict []) ;;;
        __get__ (H := plain_floats) 1000 (StringAccess "motigaData") "joint1")
    two_joints
  = inr (PStr "{}").
Proof. vm_compute. reflexivity. Qed.

(** C4 (the code breaks it): with [{"a":1}] stored and the defaults
    [{"a":0,"b":2}], the mapping [__get__] merges is [{"a":1,"b":2}], but
    no proxy over it is ever returned: building the [ProxyDict] raises
    [RuntimeError] at its first assignment, whatever the recursion limit. *)
Theorem JsonAccessDirect_get_raises `{FloatText} (limit : nat) :
  eval (res <- _getStringAttr "joint1" "motigaData" ;;
        loaded <- json.loads res ;;
        dict_update defaults_ab loaded) stored_a1
  = inr [("a", PInt 1); ("b", PInt 2)]
  /\ eval (ProxyDict.__init__ limit (PDict [("a", PInt 1); ("b", PInt 2)])
             "joint1" "motigaData") stored_a1
     = inl RuntimeError
  /\ eval (__get__ limit (JsonAccessDirect "motigaData" defaults_ab) "joint1")
       stored_a1
     = inl RuntimeError.
Proof.
  split; [|split].
  - vm_compute. reflexivity.
  - unfold eval. by rewrite ProxyDict_init_raises.
  - unfold eval. rewrite JsonAccessDirect_get_spec. vm_compute. reflexivity.
Qed.

(** No call of [JsonAccessDirect.__get__] returns. *)
Lemma JsonAccessDirect_get_never_returns `{FloatText} limit attr defaults instance s :
  exists e, eval (__get__ limit (JsonAccessDirect attr defaults) instance) s = inl e.
Proof.
  unfold eval. rewrite JsonAccessDirect_get_spec. cbv zeta.
  destruct (truthy _); [|by eexists].
  destruct (json.loads _ s) as [[] ?|]; by eexists.
Qed.

(** C5 (as stated, refuted): setting a node on a string attribute that
    holds the literal hello leaves that literal stored, it is not cleared;
    and setting the empty string on a node without the attribute writes
    nothing, the attribute is still missing. *)
Lemma set_node_keeps_string :
  plugs (exec (__set__ (H := plain_floats) (SingleStringConnectionAccess "ref")
                 "joint1" (PNode "joint2")) stored_hello) !! ("joint1", "ref")
  = Some (mkAttribute dt_string (PStr "hello") ["joint2"])
  /\ plugs (exec (__set__ (H := plain_floats) (SingleStringConnectionAccess "ref")
                 "joint1" (PStr "")) two_joints) !! ("joint1", "ref")
     = None.
Proof. split; reflexivity. Qed.

(** C5 (amended): for the connection-or-string accessor, on every node:
    setting a non-empty string completes and leaves the attribute (created
    as a string attribute when missing) with no connection and the string
    as its value; setting a node completes and leaves the attribute (created
    as a string attribute when missing) with its stored value untouched and
    that node as its connection. *)
Theorem string_connection_set `{FloatText} (attr : string) (instance : node)
  (s : Scene) :
  let self := SingleStringConnectionAccess attr in
  let a := ensured dt_string (plugs s !! (instance, attr)) in
  (forall str, str <> "" ->
     __set__ self instance (PStr str) s =
     Done tt (put s (instance, attr) (mkAttribute (attr_type a) (PStr str) [])))
  /\ (forall n,
     __set__ self instance (PNode n) s =
     Done tt (put s (instance, attr) (mkAttribute (attr_type a) (attr_value a) [n]))).
Proof.
  simpl. split.
  - intros str Hs. rewrite setSingleStringConnection_spec. cbv zeta.
    replace (truthy (PStr str)) with true; [done|].
    simpl. by destruct str.
  - intros n. by rewrite setSingleStringConnection_spec.
Qed.

Lemma string_connection_set_witness :
  "hello" <> ""
  /\ __set__ (H := plain_floats) (SingleStringConnectionAccess "ref") "joint1"
       (PStr "hello") linked
     = Done tt (put linked ("joint1", "ref") (mkAttribute dt_string (PStr "hello") [])).
Proof.
  split; [discriminate|].
  pose proof (proj1 (string_connection_set (H := plain_floats) "ref" "joint1" linked)
                "hello" ltac:(discriminate)) as W.
  vm_compute in W |- *. exact W.
Defined.

(** C6: for the single-connection accessor: after setting node [B] on
    attribute [X] of node [A], [__get__] returns [B]; after setting [None],
    [__get__] returns [None]; and on any scene [__get__] returns the first
    entry of the attribute's connection list when the attribute exists and
    the list is not empty, and [None] otherwise. *)
Theorem single_connection_get `{FloatText} (limit : nat) (X : string) (A B : node)
  (s : Scene) :
  let self := SingleConnectionAccess X in
  eval (__get__ limit self A) (exec (__set__ self A (PNode B)) s) = inr (PNode B)
  /\ __set__ self A (PNode B) s = Done tt (exec (__set__ self A (PNode B)) s)
  /\ eval (__get__ limit self A) (exec (__set__ self A PNone) s) = inr PNone
  /\ eval (__get__ limit self A)
       (exec (__set__ self A PNone) (exec (__set__ self A (PNode B)) s)) = inr PNone
  /\ eval (__get__ limit self A) s =
     inr (match plugs s !! (A, X) with
          | Some a => match attr_inputs a with c :: _ => PNode c | [] => PNone end
          | None => PNone
          end).
Proof.
  cbn [__get__ __set__]. unfold eval, exec.
  rewrite !setSingleConnection_spec. cbn [truthy source_of scene_of].
  rewrite !getSingleConnection_spec, plugs_put_eq. cbn [result_of connected attr_inputs].
  split; [done|]. split; [done|]. split; [|split; [|done]].
  - destruct (plugs s !! (A, X)) as [a|] eqn:E; cbn [scene_of].
    + by rewrite plugs_put_eq.
    + by rewrite E.
  - cbn [scene_of]. by rewrite plugs_put_eq.
Qed.

(** C7: for the connection-or-string accessor, when the attribute has a
    connection (so that [__get__] returns the connected node), setting a
    string completes, and the [__get__] that follows returns that string. *)
Theorem string_replaces_connection `{FloatText} (limit : nat) (attr : string)
  (instance : node) (str : string) (s : Scene) (a : Attribute) (c : node)
  (cs : list node) :
  plugs s !! (instance, attr) = Some a ->
  attr_inputs a = c :: cs ->
  let self := SingleStringConnectionAccess attr in
  eval (__get__ limit self instance) s = inr (PNode c)
  /\ __set__ self instance (PStr str) s
     = Done tt (exec (__set__ self instance (PStr str)) s)
  /\ eval (__get__ limit self instance) (exec (__set__ self instance (PStr str)) s)
     = inr (PStr str).
Proof.
  intros E I. simpl. unfold eval, exec.
  rewrite getSingleStringConnection_spec, E, I. split; [done|].
  rewrite setSingleStringConnection_spec, E. cbv zeta.
  destruct (truthy (PStr str)) eqn:T.
  - split; [done|]. simpl. rewrite getSingleStringConnection_spec.
    by rewrite plugs_put_eq.
  - split; [done|]. simpl. rewrite getSingleStringConnection_spec.
    rewrite plugs_put_eq. simpl. by destruct str.
Qed.

Lemma string_replaces_connection_witness :
  let self := SingleStringConnectionAccess "ref" in
  eval (__get__ (H := plain_floats) 1000 self "joint1") linked = inr (PNode "joint2")
  /\ eval (__get__ (H := plain_floats) 1000 self "joint1")
       (exec (__set__ (H := plain_floats) self "joint1" (PStr "hello")) linked)
     = inr (PStr "hello").
Proof.
  pose proof (string_replaces_connection (H := plain_floats) 1000 "ref" "joint1"
                "hello" linked (mkAttribute dt_string (PStr "") ["joint2"])
                "joint2" [] eq_refl eq_refl) as (H1 & _ & H2).
  split; [exact H1 | exact H2].
Defined.

(** C8: for the two connection-backed accessors, on a node whose backing
    attribute exists, setting [None] or any other falsy value completes and
    leaves the attribute in place, with the same storage type and with no
    connection. *)
Theorem unset_keeps_attribute `{FloatText} (attr : string) (instance : node)
  (v : pyval) (s : Scene) (a : Attribute) :
  plugs s !! (instance, attr) = Some a ->
  truthy v = false ->
  (let self := SingleConnectionAccess attr in
   __set__ self instance v s = Done tt (exec (__set__ self instance v) s)
   /\ plugs (exec (__set__ self instance v) s) !! (instance, attr)
      = Some (mkAttribute (attr_type a) (attr_value a) []))
  /\ (let self := SingleStringConnectionAccess attr in
   __set__ self instance v s = Done tt (exec (__set__ self instance v) s)
   /\ plugs (exec (__set__ self instance v) s) !! (instance, attr)
      = Some (mkAttribute (attr_type a) (PStr "") [])).
Proof.
  intros E T. cbn [__set__]. cbv zeta. unfold exec.
  rewrite setSingleConnection_spec, setSingleStringConnection_spec, T, E.
  cbn [scene_of]. by rewrite !plugs_put_eq.
Qed.

Lemma unset_keeps_attribute_witness :
  plugs (exec (__set__ (H := plain_floats) (SingleConnectionAccess "ref") "joint1" PNone)
           linked) !! ("joint1", "ref")
  = Some (mkAttribute dt_string (PStr "") [])
  /\ plugs (exec (__set__ (H := plain_floats) (SingleStringConnectionAccess "ref")
                    "joint1" (PStr "")) linked) !! ("joint1", "ref")
     = Some (mkAttribute dt_string (PStr "") []).
Proof.
  pose proof (unset_keeps_attribute (H := plain_floats) "ref" "joint1" PNone linked
                (mkAttribute dt_string (PStr "") ["joint2"]) eq_refl eq_refl)
    as ((_ & H1) & _).
  pose proof (unset_keeps_attribute (H := plain_floats) "ref" "joint1" (PStr "") linked
                (mkAttribute dt_string (PStr "") ["joint2"]) eq_refl eq_refl)
    as (_ & (_ & H2)).
  split; [exact H1 | exact H2].
Defined.

(** C9: for every accessor, node and value, calling the setter a second
    time with the same value changes nothing: the second call ends as the
    first did and leaves the scene the first left, so [__get__] gives after
    two calls what it gives after one, whether the calls are run one after
    the other as statements or each one on its own. *)
Theorem set_twice_same_get `{FloatText} (limit : nat) (self : accessor)
  (instance : node) (v : pyval) (s : Scene) :
  eval (__get__ limit self instance)
    (exec (__set__ self instance v) (exec (__set__ self instance v) s))
  = eval (__get__ limit self instance) (exec (__set__ self instance v) s)
  /\ eval (__set__ self instance v ;;; __set__ self instance v ;;;
           __get__ limit self instance) s
     = eval (__set__ self instance v ;;; __get__ limit self instance) s.
Proof.
  pose proof (set_idempotent self instance v s) as I.
  split.
  - unfold exec at 1. by rewrite I.
  - unfold eval, exec, bind in *.
    destruct (__set__ self instance v s) as [[] s1|e s1] eqn:E1; simpl in *; [|done].
    by rewrite I.
Qed.

(** C10: every getter is read-only: whatever the accessor, the node and the
    scene (the backing attribute may be missing), [__get__] leaves the scene
    exactly as it was; no attribute is created, no connection made, and a
    missing attribute stays missing. *)
Theorem get_read_only `{FloatText} (limit : nat) (self : accessor)
  (instance : node) (s : Scene) :
  exec (__get__ limit self instance) s = s
  /\ forall obj name, plugs (exec (__get__ limit self instance) s) !! (obj, name)
                      = plugs s !! (obj, name).
Proof.
  assert (E : exec (__get__ limit self instance) s = s).
  { unfold exec. destruct self.
    - simpl. by rewrite getStringAttr_spec.
    - simpl. by rewrite getSingleConnection_spec.
    - simpl. by rewrite getSingleStringConnection_spec.
    - rewrite JsonAccess_get_spec. cbv zeta.
      destruct (truthy _); [apply loads_pure | done].
    - rewrite JsonAccessDirect_get_spec. cbv zeta.
      destruct (truthy _); [|done].
      destruct (json.loads _ s) as [[] ?|]; done.
    - simpl. by rewrite getIntAttr_spec.
    - simpl. by rewrite getFloatAttr_spec. }
  split; [done|]. intros. by rewrite E.
Qed.

(** * Further properties *)

(** ** Locality of the accessors *)

Lemma put_comm s p q a b : p <> q -> put (put s p a) q b = put (put s q b) p a.
Proof.
  intros Hpq. unfold put, with_plugs; simpl. f_equal. by apply insert_insert_ne.
Qed.

(** The outcome of a setter is a function of the names of the scene and of
    the slot it is bound to; it changes that slot or nothing. *)
Lemma set_local `{FloatText} (self : accessor) (instance : node) (v : pyval) :
  exists g : gset node -> option Attribute -> (exn + unit) * option Attribute,
    forall s,
      __set__ self instance v s =
      let r := g (names s) (plugs s !! (instance, attr_of self)) in
      outcome_of (fst r) (put_opt s (instance, attr_of self) (snd r)).
Proof.
  destruct self; cbn [__set__ attr_of].
  - exists (fun _ o => (inr tt, Some (written v (ensured dt_string o)))).
    intros s. by rewrite setStringAttr_spec.
  - exists (fun ns o =>
      if truthy v then
        match match v with
              | PStr n => if decide (n ∈ ns) then inr n else inl MayaNodeError
              | PNode n => inr n
              | _ => inl AttributeError
              end with
        | inr src => (inr tt, Some (connected src (ensured at_message o)))
        | inl e => (inl e, None)
        end
      else match o with
           | Some a => (inr tt, Some (disconnected a))
           | None => (inr tt, None)
           end).
    intros s. rewrite setSingleConnection_spec. unfold source_of. cbv zeta.
    destruct (truthy v).
    + destruct v; try done. by destruct (decide _).
    + by destruct (plugs s !! _).
  - exists (fun _ o =>
      if truthy v then
        match v with
        | PStr _ => (inr tt, Some (written v (disconnected (ensured dt_string o))))
        | PNode src => (inr tt, Some (connected src (ensured dt_string o)))
        | _ => (inl AttributeError, Some (ensured dt_string o))
        end
      else match o with
           | Some a => (inr tt, Some (written (PStr "") (disconnected a)))
           | None => (inr tt, None)
           end).
    intros s. rewrite setSingleStringConnection_spec. cbv zeta.
    destruct (truthy v).
    + by destruct v.
    + by destruct (plugs s !! _).
  - exists (fun _ o =>
      if json.serializable v
      then (inr tt, Some (written (PStr (json.encode v)) (ensured dt_string o)))
      else (inl TypeError, None)).
    intros s. rewrite json_set_spec. by destruct (json.serializable v).
  - exists (fun _ o =>
      if json.serializable v
      then (inr tt, Some (written (PStr (json.encode v)) (ensured dt_string o)))
      else (inl TypeError, None)).
    intros s. rewrite json_set_spec. by destruct (json.serializable v).
  - exists (fun _ o => (inr tt, Some (written v (ensured dt_long o)))).
    intros s. by rewrite setIntAttr_spec.
  - exists (fun _ o => (inr tt, Some (written v (ensured dt_double o)))).
    intros s. by rewrite setFloatAttr_spec.
Qed.

Lemma scene_of_outcome_of {A} (r : exn + A) s : scene_of (outcome_of r s) = s.
Proof. by destruct r. Qed.

Lemma result_of_outcome_of {A} (r : exn + A) s : result_of (outcome_of r s) = r.
Proof. by destruct r. Qed.

Lemma plugs_put_opt_ne s p q o : p <> q -> plugs (put_opt s p o) !! q = plugs s !! q.
Proof. intros. destruct o; [by apply plugs_put_ne | done]. Qed.

Lemma names_put_opt s p o : names (put_opt s p o) = names s.
Proof. by destruct o. Qed.

Lemma put_opt_comm s p q o o' :
  p <> q -> put_opt (put_opt s p o) q o' = put_opt (put_opt s q o') p o.
Proof. intros. destruct o, o'; simpl; try done. by apply put_comm. Qed.

Lemma loads_result `{FloatText} v s s' :
  result_of (json.loads v s) = result_of (json.loads v s').
Proof.
  unfold json.loads. destruct v; try reflexivity.
  repeat case_match; reflexivity.
Qed.

(** What a getter returns is a function of the slot it is bound to. *)
Lemma get_local `{FloatText} (limit : nat) (self : accessor) (instance : node) :
  exists g : option Attribute -> exn + pyval,
    forall s, eval (__get__ limit self instance) s
              = g (plugs s !! (instance, attr_of self)).
Proof.
  unfold eval. destruct self; cbn [attr_of].
  - exists (fun o => inr match o with Some a => attr_value a | None => PStr "" end).
    intros s. cbn [__get__]. by rewrite getStringAttr_spec.
  - exists (fun o => inr match o with
                         | Some a => match attr_inputs a with
                                     | c :: _ => PNode c
                                     | [] => PNone
                                     end
                         | None => PNone
                         end).
    intros s. cbn [__get__]. by rewrite getSingleConnection_spec.
  - exists (fun o => inr match o with
                         | Some a => match attr_inputs a with
                                     | c :: _ => PNode c
                                     | [] => attr_value a
                                     end
                         | None => PStr ""
                         end).
    intros s. cbn [__get__]. by rewrite getSingleStringConnection_spec.
  - exists (fun o =>
      let res := match o with Some a => attr_value a | None => PStr "" end in
      if truthy res then result_of (json.loads res two_joints) else inr (PDict [])).
    intros s. rewrite JsonAccess_get_spec. cbv zeta.
    destruct (truthy _); [apply loads_result | done].
  - exists (fun o =>
      let res := match o with Some a => attr_value a | None => PStr "" end in
      if truthy res then
        match json.loads res two_joints with
        | Done (PDict _) _ => inl RuntimeError
        | Done _ _ => inl TypeError
        | Raised e _ => inl e
        end
      else inl RuntimeError).
    intros s. rewrite JsonAccessDirect_get_spec. cbv zeta.
    destruct (truthy _); [|done].
    pose proof (loads_result (match plugs s !! (instance, attr) with
                              | Some a => attr_value a
                              | None => PStr ""
                              end) s two_joints) as R.
    destruct (json.loads _ s) as [[] ?|], (json.loads _ two_joints) as [[] ?|];
      simpl in R; try discriminate R; done.
  - exists (fun o => inr match o with Some a => attr_value a | None => PInt (-666) end).
    intros s. cbn [__get__]. by rewrite getIntAttr_spec.
  - eexists (fun o => inr match o with Some a => attr_value a | None => _ end).
    intros s. cbn [__get__]. rewrite getFloatAttr_spec. cbn [result_of].
    reflexivity.
Qed.

(** Frame: a setter changes no slot other than its own and no name, so
    every getter and every setter bound to another slot gives after it what
    it gave before. *)
Theorem set_frame `{FloatText} (limit : nat) (self : accessor) (instance : node)
  (v : pyval) (s : Scene) (other : accessor) (instance' : node) :
  (instance', attr_of other) <> (instance, attr_of self) ->
  let s' := exec (__set__ self instance v) s in
  names s' = names s
  /\ (forall q, q <> (instance, attr_of self) -> plugs s' !! q = plugs s !! q)
  /\ eval (__get__ limit other instance') s' = eval (__get__ limit other instance') s
  /\ (forall w, eval (__set__ other instance' w) s' = eval (__set__ other instance' w) s).
Proof.
  intros Hne s'. subst s'. unfold exec.
  destruct (set_local self instance v) as [g Hg]. rewrite Hg. cbv zeta.
  rewrite scene_of_outcome_of.
  split; [apply names_put_opt|]. split; [|split].
  - intros q Hq. by apply plugs_put_opt_ne.
  - destruct (get_local limit other instance') as [g' Hg']. rewrite !Hg'.
    by rewrite plugs_put_opt_ne.
  - intros w. destruct (set_local other instance' w) as [g' Hg']. unfold eval.
    rewrite !Hg'. cbv zeta. rewrite !result_of_outcome_of.
    by rewrite names_put_opt, plugs_put_opt_ne.
Qed.

Lemma set_frame_witness :
  let s' := exec (__set__ (H := plain_floats) (StringAccess "ref") "joint2"
                    (PStr "spine")) linked in
  names s' = names linked
  /\ eval (__get__ (H := plain_floats) 1000 (SingleStringConnectionAccess "ref")
             "joint1") s'
     = inr (PNode "joint2").
Proof.
  pose proof (set_frame (H := plain_floats) 1000 (StringAccess "ref") "joint2"
                (PStr "spine") linked (SingleStringConnectionAccess "ref") "joint1"
                ltac:(discriminate)) as (Hn & _ & Hg & _).
  split; [exact Hn|]. etransitivity; [exact Hg|]. reflexivity.
Defined.

(** Two setters bound to different slots commute: run in either order
    they leave the same scene. *)
Theorem setters_commute `{FloatText} (self1 self2 : accessor) (inst1 inst2 : node)
  (v1 v2 : pyval) (s : Scene) :
  (inst1, attr_of self1) <> (inst2, attr_of self2) ->
  exec (__set__ self2 inst2 v2) (exec (__set__ self1 inst1 v1) s)
  = exec (__set__ self1 inst1 v1) (exec (__set__ self2 inst2 v2) s).
Proof.
  intros Hne. unfold exec.
  destruct (set_local self1 inst1 v1) as [g1 H1].
  destruct (set_local self2 inst2 v2) as [g2 H2].
  rewrite (H1 s), (H2 s). cbv zeta. rewrite !scene_of_outcome_of.
  rewrite H1, H2. cbv zeta. rewrite !scene_of_outcome_of.
  rewrite !names_put_opt, !plugs_put_opt_ne by done.
  by apply put_opt_comm.
Qed.

Lemma setters_commute_witness :
  exec (__set__ (H := plain_floats) (IntAccess "count") "joint2" (PInt 3))
    (exec (__set__ (H := plain_floats) (SingleConnectionAccess "mirror") "joint1"
             (PStr "joint2")) two_joints)
  = exec (__set__ (H := plain_floats) (SingleConnectionAccess "mirror") "joint1"
            (PStr "joint2"))
      (exec (__set__ (H := plain_floats) (IntAccess "count") "joint2" (PInt 3))
         two_joints).
Proof.
  apply (setters_commute (H := plain_floats) (SingleConnectionAccess "mirror")
           (IntAccess "count") "joint1" "joint2" (PStr "joint2") (PInt 3) two_joints).
  discriminate.
Defined.

(** ** More on the utilities *)

(** [messageAttr] never raises and returns the plug of the attribute; an
    attribute that exists is left as it is (the scene is unchanged), a
    missing one is created as a message attribute without a connection;
    nothing else changes, and a second call changes nothing. *)
Theorem messageAttr_makes_or_keeps (obj : node) (name : string) (s : Scene) :
  let s' := exec (messageAttr obj name) s in
  messageAttr obj name s = Done (obj, name) s'
  /\ (is_Some (plugs s !! (obj, name)) -> s' = s)
  /\ (plugs s !! (obj, name) = None ->
      plugs s' !! (obj, name) = Some (mkAttribute at_message PNone []))
  /\ (forall q, q <> (obj, name) -> plugs s' !! q = plugs s !! q)
  /\ names s' = names s
  /\ messageAttr obj name s' = Done (obj, name) s'.
Proof.
  intros s'. subst s'. unfold exec. rewrite messageAttr_spec. cbn [scene_of].
  split; [done|]. split; [|split; [|split; [|split]]].
  - intros [a E]. rewrite E. by apply put_id.
  - intros E. by rewrite plugs_put_eq, E.
  - intros q Hq. by apply plugs_put_ne.
  - done.
  - rewrite messageAttr_spec, plugs_put_eq, put_put. done.
Qed.

Lemma messageAttr_makes_or_keeps_witness :
  plugs (exec (messageAttr "joint1" "mirror") two_joints) !! ("joint1", "mirror")
  = Some (mkAttribute at_message PNone [])
  /\ exec (messageAttr "joint1" "ref") linked = linked.
Proof.
  split.
  - apply (messageAttr_makes_or_keeps "joint1" "mirror" two_joints). reflexivity.
  - apply (messageAttr_makes_or_keeps "joint1" "ref" linked). eexists. reflexivity.
Defined.

(** No setter deletes an attribute or changes the storage type of one
    that exists; the scalar and JSON setters leave its connections as they
    are, and the single-connection setter leaves its stored value. *)
Theorem set_keeps_attributes `{FloatText} (self : accessor) (instance : node)
  (v : pyval) (s : Scene) (q : plug) (a : Attribute) :
  plugs s !! q = Some a ->
  exists a', plugs (exec (__set__ self instance v) s) !! q = Some a'
    /\ attr_type a' = attr_type a
    /\ match self with
       | SingleConnectionAccess _ => attr_value a' = attr_value a
       | SingleStringConnectionAccess _ => True
       | _ => attr_inputs a' = attr_inputs a
       end.
Proof.
  intros E. destruct (decide (q = (instance, attr_of self))) as [->|Hq].
  - unfold exec. destruct self; cbn [__set__ attr_of] in *.
    + rewrite setStringAttr_spec, E. cbn [scene_of]. rewrite plugs_put_eq.
      eexists; split; [done|]. by destruct v.
    + rewrite setSingleConnection_spec, E.
      destruct (truthy v); [destruct (source_of s v)|]; cbn [scene_of];
        rewrite ?plugs_put_eq, ?E; by eexists.
    + rewrite setSingleStringConnection_spec, E. cbv zeta.
      destruct (truthy v); [destruct v|]; cbn [scene_of];
        rewrite ?plugs_put_eq; by eexists.
    + rewrite json_set_spec, E. destruct (json.serializable v); cbn [scene_of];
        rewrite ?plugs_put_eq, ?E; by eexists.
    + rewrite json_set_spec, E. destruct (json.serializable v); cbn [scene_of];
        rewrite ?plugs_put_eq, ?E; by eexists.
    + rewrite setIntAttr_spec, E. cbn [scene_of]. rewrite plugs_put_eq.
      eexists; split; [done|]. by destruct v.
    + rewrite setFloatAttr_spec, E. cbn [scene_of]. rewrite plugs_put_eq.
      eexists; split; [done|]. by destruct v.
  - exists a. unfold exec. destruct (set_local self instance v) as [g Hg].
    rewrite Hg. cbv zeta. rewrite scene_of_outcome_of.
    rewrite plugs_put_opt_ne by done. split; [done|]. split; [done|].
    by destruct self.
Qed.

Lemma set_keeps_attributes_witness :
  exists a', plugs (exec (__set__ (H := plain_floats) (IntAccess "ref") "joint1"
                            (PInt 4)) linked) !! ("joint1", "ref") = Some a'
    /\ attr_type a' = dt_string
    /\ attr_inputs a' = ["joint2"].
Proof.
  apply (set_keeps_attributes (H := plain_floats) (IntAccess "ref") "joint1" (PInt 4)
           linked ("joint1", "ref") (mkAttribute dt_string (PStr "") ["joint2"])).
  reflexivity.
Defined.

(** The single-connection setter given a non-empty name: when a node has
    that name the call does what it does for that node, and the getter
    then returns the node; when no node has it the call raises
    [MayaNodeError] and leaves the scene as it was, the attribute is not
    created. *)
Theorem connect_by_name `{FloatText} (limit : nat) (attr : string) (instance : node)
  (name : string) (s : Scene) :
  name <> "" ->
  let self := SingleConnectionAccess attr in
  (name ∈ names s ->
     __set__ self instance (PStr name) s = __set__ self instance (PNode name) s
     /\ eval (__get__ limit self instance) (exec (__set__ self instance (PStr name)) s)
        = inr (PNode name))
  /\ (name ∉ names s ->
      __set__ self instance (PStr name) s = Raised MayaNodeError s).
Proof.
  intros Hn self. subst self. cbn [__set__ __get__]. unfold eval, exec.
  rewrite !setSingleConnection_spec.
  assert (T : truthy (PStr name) = true) by (by destruct name).
  rewrite T. cbn [truthy source_of]. split.
  - intros Hin. destruct (decide _); [|done]. split; [done|].
    cbn [scene_of]. by rewrite getSingleConnection_spec, plugs_put_eq.
  - intros Hout. by destruct (decide _).
Qed.

Lemma connect_by_name_witness :
  eval (__get__ (H := plain_floats) 1000 (SingleConnectionAccess "mirror") "joint1")
    (exec (__set__ (H := plain_floats) (SingleConnectionAccess "mirror") "joint1"
             (PStr "joint2")) two_joints)
  = inr (PNode "joint2")
  /\ __set__ (H := plain_floats) (SingleConnectionAccess "mirror") "joint1"
       (PStr "joint3") two_joints
     = Raised MayaNodeError two_joints.
Proof.
  split.
  - apply (connect_by_name (H := plain_floats) 1000 "mirror" "joint1" "joint2"
             two_joints ltac:(discriminate)).
    vm_compute. reflexivity.
  - apply (connect_by_name (H := plain_floats) 1000 "mirror" "joint1" "joint3"
             two_joints ltac:(discriminate)).
    vm_compute. discriminate.
Defined.

(** A true value that is neither a string nor a node (a number, a list,
    a mapping) has no [message]: the single-connection setter raises
    [AttributeError] before it touches the scene, while the
    connection-or-string setter raises it after it has made sure the string
    attribute exists, so a missing attribute has been created by then. *)
Theorem set_without_message `{FloatText} (attr : string) (instance : node)
  (v : pyval) (s : Scene) :
  truthy v = true ->
  is_basestring v = false ->
  lacks_message v = true ->
  __set__ (SingleConnectionAccess attr) instance v s = Raised AttributeError s
  /\ __set__ (SingleStringConnectionAccess attr) instance v s
     = Raised AttributeError
         (put s (instance, attr) (ensured dt_string (plugs s !! (instance, attr))))
  /\ (is_Some (plugs s !! (instance, attr)) ->
      exec (__set__ (SingleStringConnectionAccess attr) instance v) s = s)
  /\ (plugs s !! (instance, attr) = None ->
      plugs (exec (__set__ (SingleStringConnectionAccess attr) instance v) s)
        !! (instance, attr)
      = Some (mkAttribute dt_string (PStr "") [])).
Proof.
  intros T B L. cbn [__set__]. unfold exec.
  rewrite setSingleConnection_spec, setSingleStringConnection_spec, T. cbv zeta.
  destruct v; try discriminate; cbn [source_of scene_of];
    (split; [done|]; split; [done|]; split;
     [ intros [a E]; rewrite E; by apply put_id
     | intros E; by rewrite plugs_put_eq, E ]).
Qed.

Lemma set_without_message_witness :
  __set__ (H := plain_floats) (SingleConnectionAccess "ref") "joint1" (PInt 5)
    two_joints
  = Raised AttributeError two_joints
  /\ plugs (exec (__set__ (H := plain_floats) (SingleStringConnectionAccess "ref")
                    "joint1" (PInt 5)) two_joints) !! ("joint1", "ref")
     = Some (mkAttribute dt_string (PStr "") []).
Proof.
  pose proof (set_without_message (H := plain_floats) "ref" "joint1" (PInt 5)
                two_joints eq_refl eq_refl eq_refl) as (H1 & _ & _ & H2).
  split; [exact H1 | apply H2; reflexivity].
Defined.

(** On a node without the backing attribute, setting [None] or any other
    false value through a connection-backed accessor does nothing: the
    call completes and the scene is as it was, the attribute is not
    created. *)
Theorem unset_missing_is_noop `{FloatText} (attr : string) (instance : node)
  (v : pyval) (s : Scene) :
  plugs s !! (instance, attr) = None ->
  truthy v = false ->
  __set__ (SingleConnectionAccess attr) instance v s = Done tt s
  /\ __set__ (SingleStringConnectionAccess attr) instance v s = Done tt s.
Proof.
  intros E T. cbn [__set__].
  by rewrite setSingleConnection_spec, setSingleStringConnection_spec, T, E.
Qed.

Lemma unset_missing_is_noop_witness :
  __set__ (H := plain_floats) (SingleConnectionAccess "mirror") "joint1" PNone
    two_joints = Done tt two_joints
  /\ __set__ (H := plain_floats) (SingleStringConnectionAccess "mirror") "joint1"
       (PList []) two_joints = Done tt two_joints.
Proof.
  split.
  - apply (unset_missing_is_noop (H := plain_floats) "mirror" "joint1" PNone
             two_joints eq_refl eq_refl).
  - apply (unset_missing_is_noop (H := plain_floats) "mirror" "joint1" (PList [])
             two_joints eq_refl eq_refl).
Defined.

(** Round trip of the connection-or-string accessor, on every scene:
    after setting a string (the empty one included) the getter returns
    that string, after setting a node it returns that node, and after
    setting any false value it returns the empty string. *)
Theorem string_connection_round_trip `{FloatText} (limit : nat) (attr : string)
  (instance : node) (s : Scene) :
  let self := SingleStringConnectionAccess attr in
  let after v := eval (__get__ limit self instance) (exec (__set__ self instance v) s) in
  (forall str, after (PStr str) = inr (PStr str))
  /\ (forall n, after (PNode n) = inr (PNode n))
  /\ (forall v, truthy v = false -> after v = inr (PStr "")).
Proof.
  intros self after. subst self after. cbn [__set__ __get__]. unfold eval, exec.
  assert (F : forall v, truthy v = false ->
            result_of (_getSingleStringConnection instance attr
              (scene_of (_setSingleStringConnection instance attr v s)))
            = inr (PStr "")).
  { intros v T. rewrite setSingleStringConnection_spec, T. cbv zeta.
    destruct (plugs s !! (instance, attr)) as [a|] eqn:E; cbn [scene_of];
      rewrite getSingleStringConnection_spec.
    - by rewrite plugs_put_eq.
    - by rewrite E. }
  split; [|split; [|exact F]].
  - intros str. destruct str as [|c str]; [by apply F|].
    rewrite setSingleStringConnection_spec. cbn [truthy String.eqb negb scene_of].
    cbv zeta. cbn [scene_of].
    by rewrite getSingleStringConnection_spec, plugs_put_eq.
  - intros n. rewrite setSingleStringConnection_spec. cbn [truthy scene_of]. cbv zeta.
    cbn [scene_of]. by rewrite getSingleStringConnection_spec, plugs_put_eq.
Qed.

Lemma string_connection_round_trip_witness :
  eval (__get__ (H := plain_floats) 1000 (SingleStringConnectionAccess "ref") "joint1")
    (exec (__set__ (H := plain_floats) (SingleStringConnectionAccess "ref") "joint1"
             (PInt 0)) linked)
  = inr (PStr "").
Proof.
  apply (string_connection_round_trip (H := plain_floats) 1000 "ref" "joint1" linked).
  reflexivity.
Defined.

(** ** More on the JSON accessors *)

(** A value [json.dumps] refuses (one that holds a node or a proxy) is
    refused by both JSON setters before anything is written: the call
    raises [TypeError] and the scene is as it was, a missing attribute is
    not created. *)
Theorem json_set_rejects `{FloatText} (attr : string)
  (defaults : list (string * pyval)) (instance : node) (v : pyval) (s : Scene) :
  json.serializable v = false ->
  __set__ (JsonAccess attr) instance v s = Raised TypeError s
  /\ __set__ (JsonAccessDirect attr defaults) instance v s = Raised TypeError s.
Proof.
  intros S. cbn [__set__]. by rewrite json_set_spec, S.
Qed.

Lemma json_set_rejects_witness :
  __set__ (H := plain_floats) (JsonAccess "motigaData") "joint1"
    (PDict [("mirror", PNode "joint2")]) two_joints
  = Raised TypeError two_joints.
Proof.
  apply (json_set_rejects (H := plain_floats) "motigaData" [] "joint1"
           (PDict [("mirror", PNode "joint2")]) two_joints eq_refl).
Defined.

(** Either JSON setter, given any JSON data (not only a mapping: [None],
    a number, a string, a list), stores its text, which the string getter
    returns, and the snapshot getter then returns the value itself; so
    setting [None] stores the text null and is read back as [None]. *)
Theorem json_set_then_get `{FloatText} (limit : nat) (attr : string)
  (defaults : list (string * pyval)) (instance : node) (v : pyval) (s : Scene)
  (self : accessor) :
  json_data v = true ->
  self = JsonAccess attr \/ self = JsonAccessDirect attr defaults ->
  let s' := exec (__set__ self instance v) s in
  __set__ self instance v s = Done tt s'
  /\ eval (__get__ limit (StringAccess attr) instance) s' = inr (PStr (json.encode v))
  /\ eval (__get__ limit (JsonAccess attr) instance) s' = inr v.
Proof.
  intros J Hself s'. subst s'. unfold exec, eval.
  destruct (loads_dumps v s J) as (S & N & _).
  assert (E : __set__ self instance v s =
              Done tt (put s (instance, attr)
                         (written (PStr (json.encode v))
                            (ensured dt_string (plugs s !! (instance, attr)))))).
  { destruct Hself as [-> | ->]; cbn [__set__]; by rewrite json_set_spec, S. }
  rewrite E. cbn [scene_of]. split; [done|]. split.
  - cbn [__get__]. by rewrite getStringAttr_spec, plugs_put_eq.
  - rewrite JsonAccess_get_spec, plugs_put_eq. cbn [written attr_value]. cbv zeta.
    replace (truthy (PStr (json.encode v))) with true.
    + by destruct (loads_dumps v
                     (put s (instance, attr)
                        (mkAttribute
                           (attr_type (ensured dt_string (plugs s !! (instance, attr))))
                           (PStr (json.encode v))
                           (attr_inputs (ensured dt_string (plugs s !! (instance, attr))))))
                     J) as (_ & _ & ->).
    + cbn [truthy]. destruct (json.encode v); done.
Qed.

Lemma json_set_then_get_witness :
  let s' := exec (__set__ (H := plain_floats) (JsonAccessDirect "motigaData" defaults_ab)
                    "joint1" PNone) two_joints in
  eval (__get__ (H := plain_floats) 1000 (StringAccess "motigaData") "joint1") s'
  = inr (PStr "null")
  /\ eval (__get__ (H := plain_floats) 1000 (JsonAccess "motigaData") "joint1") s'
     = inr PNone.
Proof.
  pose proof (json_set_then_get (H := plain_floats) 1000 "motigaData" defaults_ab
                "joint1" PNone two_joints (JsonAccessDirect "motigaData" defaults_ab)
                eq_refl (or_intror eq_refl)) as (_ & H1 & H2).
  split; [exact H1 | exact H2].
Defined.

(** The snapshot JSON getter on an attribute that exists: a stored value
    that is false (the empty string, zero, [None]) gives the empty mapping;
    a stored value that is true and not a string makes [json.loads] raise
    [TypeError]; a stored text of white space only makes it raise
    [ValueError]. *)
Theorem JsonAccess_get_stored `{FloatText} (limit : nat) (attr : string)
  (instance : node) (s : Scene) (a : Attribute) :
  plugs s !! (instance, attr) = Some a ->
  let got := eval (__get__ limit (JsonAccess attr) instance) s in
  (truthy (attr_value a) = false -> got = inr (PDict []))
  /\ (truthy (attr_value a) = true -> is_basestring (attr_value a) = false ->
      got = inl TypeError)
  /\ (forall text, attr_value a = PStr text -> text <> "" -> json.skip_ws text = "" ->
      got = inl ValueError).
Proof.
  intros E got. subst got. unfold eval. rewrite JsonAccess_get_spec, E. cbv zeta.
  split; [|split].
  - by intros ->.
  - intros -> B. by destruct (attr_value a).
  - intros text -> N W. replace (truthy (PStr text)) with true by (by destruct text).
    unfold json.loads. by rewrite W.
Qed.

Lemma JsonAccess_get_stored_witness :
  eval (__get__ (H := plain_floats) 1000 (JsonAccess "ref") "joint1") linked
  = inr (PDict [])
  /\ eval (__get__ (H := plain_floats) 1000 (JsonAccess "ref") "joint1")
       (put two_joints ("joint1", "ref") (mkAttribute dt_long (PInt 7) []))
     = inl TypeError
  /\ eval (__get__ (H := plain_floats) 1000 (JsonAccess "ref") "joint1")
       (put two_joints ("joint1", "ref") (mkAttribute dt_string (PStr " ") []))
     = inl ValueError.
Proof.
  pose proof (JsonAccess_get_stored (H := plain_floats) 1000 "ref" "joint1" linked
                (mkAttribute dt_string (PStr "") ["joint2"]) eq_refl) as (H1 & _ & _).
  pose proof (JsonAccess_get_stored (H := plain_floats) 1000 "ref" "joint1"
                (put two_joints ("joint1", "ref") (mkAttribute dt_long (PInt 7) []))
                (mkAttribute dt_long (PInt 7) []) eq_refl) as (_ & H2 & _).
  pose proof (JsonAccess_get_stored (H := plain_floats) 1000 "ref" "joint1"
                (put two_joints ("joint1", "ref") (mkAttribute dt_string (PStr " ") []))
                (mkAttribute dt_string (PStr " ") []) eq_refl) as (_ & _ & H3).
  split; [|split].
  - apply H1. reflexivity.
  - apply H2; reflexivity.
  - apply (H3 " "); [reflexivity | discriminate | reflexivity].
Defined.

(** ** DeprecatedAttr and FakeAttribute *)



(** ** ProxyDict on an instance that has its fields *)





(** A value that [json.dumps] refuses is put into [d] all the same, but
    nothing reaches the node: [__setattr__] raises [TypeError] with the
    scene as it was. *)
Theorem ProxyDict_setattr_rejects `{FloatText} (limit : nat)
  (d : list (string * pyval)) (inst : node) (attr : string) (a : string) (v : pyval)
  (s : Scene) :
  json.serializable (PDict (json.setitem d a v)) = false ->
  ProxyDict.__setattr__ limit (proxy_over d inst attr) a v s = Raised TypeError s.
Proof.
  intros S.
  unfold ProxyDict.__setattr__, proxy_over, ProxyDict.getattribute.
  cbn [ProxyDict.instance_dict List.find fst snd String.eqb Ascii.eqb Bool.eqb map].
  unfold bind, ret, setitem, json.dumps.
  cbn [ProxyDict.instance_dict List.find fst snd String.eqb Ascii.eqb Bool.eqb map].
  unfold ret. cbv beta iota. by rewrite S.
Qed.

Lemma ProxyDict_setattr_rejects_witness :
  ProxyDict.__setattr__ (H := plain_floats) 1000
    (proxy_over [("a", PInt 1)] "joint1" "motigaData") "mirror" (PNode "joint2")
    two_joints
  = Raised TypeError two_joints.
Proof.
  apply (ProxyDict_setattr_rejects (H := plain_floats) 1000 [("a", PInt 1)] "joint1"
           "motigaData" "mirror" (PNode "joint2") two_joints).
  reflexivity.
Defined.
